(** * Text-preprocessing: the cleaning stage, the five-stage pipeline,
      the web-page extractor, the resource loader and the page script of
      [app.py], embedded in Rocq.

    A Python [str] is a sequence of Unicode code points, so a document is
    a [list N] here: [len] is [length], and a character is its code point.
    The Unicode tables behind [str.lower], the [re] classes [\d], [\w],
    [\s] and the third-party calls (BeautifulSoup, NLTK, requests) are not
    part of [app.py]; they are Section variables, and the few facts the
    proofs use about them are stated as hypotheses next to them. *)

From Stdlib Require Import NArith String Ascii.
From stdpp Require Import base list gmap.

Open Scope N_scope.

Abbreviation char := N (only parsing).
Abbreviation str := (list N) (only parsing).

(** A literal of the source, read as the list of its code points. *)
Definition lit (s : string) : str :=
  List.map N_of_ascii (list_ascii_of_string s).

Arguments lit : simpl never.

(** The characters the source names explicitly. *)
Definition SP : char := 32.    (* ' ' *)
Definition LF : char := 10.    (* '\n' *)
Definition HASH : char := 35.  (* '#' *)

(** [string.punctuation]: the 32 ASCII punctuation characters, in the
    order of the standard library's constant. *)
Definition punctuation : str :=
  [33; 34; 35; 36; 37; 38; 39; 40; 41; 42; 43; 44; 45; 46; 47;
   58; 59; 60; 61; 62; 63; 64;
   91; 92; 93; 94; 95; 96;
   123; 124; 125; 126].

(** ** String operations of the Python runtime used by [app.py] *)

(** [re.sub(cls+, repl, s)]: every maximal run of characters of the class
    is replaced by [repl]. [prev] records that the previous character was
    in the class, so the current run has already been replaced. *)
Fixpoint sub_runs (cls : char → bool) (repl : str) (prev : bool) (s : str) : str :=
  match s with
  | [] => []
  | c :: s' =>
      if cls c
      then (if prev then [] else repl) ++ sub_runs cls repl true s'
      else c :: sub_runs cls repl false s'
  end.

Definition re_sub_plus (cls : char → bool) (repl : str) (s : str) : str :=
  sub_runs cls repl false s.

(** [s.translate(str.maketrans('', '', table))]: delete the characters of
    [table]. *)
Definition translate_delete (table : str) (s : str) : str :=
  filter (λ c, c ∉ table) s.

(** [s.lstrip()], [s.rstrip()], [s.strip()] for a whitespace class. *)
Fixpoint lstrip (ws : char → bool) (s : str) : str :=
  match s with
  | [] => []
  | c :: s' => if ws c then lstrip ws s' else s
  end.

Fixpoint rstrip (ws : char → bool) (s : str) : str :=
  match s with
  | [] => []
  | c :: s' =>
      match rstrip ws s' with
      | [] => if ws c then [] else [c]
      | r => c :: r
      end
  end.

Definition strip (ws : char → bool) (s : str) : str := rstrip ws (lstrip ws s).

(** [s.startswith(p)] and [p in s]. *)
Fixpoint startswith (s p : str) : bool :=
  match p, s with
  | [], _ => true
  | _ :: _, [] => false
  | a :: p', b :: s' => (a =? b) && startswith s' p'
  end.

Fixpoint contains (s p : str) : bool :=
  startswith s p ||
  match s with
  | [] => false
  | _ :: s' => contains s' p
  end.

(** [s.split()]: the maximal runs of non-whitespace characters. [cur] is
    the word being read, in reverse. *)
Fixpoint split_go (ws : char → bool) (cur : str) (s : str) : list str :=
  match s with
  | [] => match cur with [] => [] | _ => [reverse cur] end
  | c :: s' =>
      if ws c
      then match cur with
           | [] => split_go ws [] s'
           | _ => reverse cur :: split_go ws [] s'
           end
      else split_go ws (c :: cur) s'
  end.

Definition split (ws : char → bool) (s : str) : list str := split_go ws [] s.

(** [sep.join(parts)]. *)
Fixpoint join (sep : str) (parts : list str) : str :=
  match parts with
  | [] => []
  | [p] => p
  | p :: rest => p ++ sep ++ join sep rest
  end.

(** No two neighbouring characters are both in the class. *)
Fixpoint no_adjacent (cls : char → bool) (s : str) : bool :=
  match s with
  | a :: (b :: _) as t => negb (cls a && cls b) && no_adjacent cls t
  | _ => true
  end.

(** The text is empty or starts outside the class. *)
Definition head_outside (cls : char → bool) (s : str) : Prop :=
  match s with
  | [] => True
  | c :: _ => cls c = false
  end.

(** ** The cleaning stage *)

Section Clean.

(** [str.lower] *)
Variable lower : str → str.
(** the [re] classes [\d], [\w] and [\s]; [\s] is also the whitespace of
    [str.strip] and [str.split] *)
Variable is_digit : char → bool.
Variable is_word : char → bool.
Variable is_space : char → bool.
(** [BeautifulSoup(text, "html.parser").get_text()] *)
Variable soup_text : str → str.

Definition clean_text (text : str) : str :=
  let text := lower text in
  let text := re_sub_plus is_digit [] text in
  let text := translate_delete punctuation text in
  let text := re_sub_plus (λ c, negb (is_word c)) [SP] text in
  let text := re_sub_plus is_space [SP] text in
  let text := soup_text text in
  strip is_space text.

End Clean.

(** ** The five-stage pipeline *)

(** The five corpora [preprocess_text] returns, in the order of its
    return statement. *)
Record PipelineResult := {
  cleaned_corpus : list str;
  tokenized_corpus : list (list str);
  filtered_corpus : list (list str);
  stemmed_corpus : list (list str);
  lemmatized_corpus : list (list str)
}.

Section Pipeline.

Variable lower : str → str.
Variable is_digit is_word is_space : char → bool.
Variable soup_text : str → str.
(** [nltk.tokenize.word_tokenize] *)
Variable word_tokenize : str → list str.
(** [stopwords.words('english')] *)
Variable stopwords_english : list str.
(** [PorterStemmer().stem] and [WordNetLemmatizer().lemmatize] *)
Variable stem : str → str.
Variable lemmatize : str → str.

(** The progress bar and the status line are calls into the UI shell
    and leave the five corpora untouched; they are not modelled. This is
    the result of [preprocess_text] when every NLTK call returns;
    [try_preprocess_text] below is the function with the calls that can
    raise. *)
Definition preprocess_text (corpus : list str) : PipelineResult :=
  let cleaned := clean_text lower is_digit is_word is_space soup_text <$> corpus in
  let tokenized := word_tokenize <$> cleaned in
  let stop_words : gset (list N) := list_to_set stopwords_english in
  let filtered :=
    (λ doc, filter (λ word, (word ∉ stop_words) ∧ (2 < length word)%nat) doc)
      <$> tokenized in
  let stemmed := (λ doc, stem <$> doc) <$> filtered in
  let lemmatized := (λ doc, lemmatize <$> doc) <$> filtered in
  {| cleaned_corpus := cleaned;
     tokenized_corpus := tokenized;
     filtered_corpus := filtered;
     stemmed_corpus := stemmed;
     lemmatized_corpus := lemmatized |}.

End Pipeline.

(** ** The web-page extractor *)

(** The parse tree BeautifulSoup builds: text, comments, and tags with
    their name, their [class] attribute (absent, or its list of values)
    and their children. *)
#[warnings="-register-all"]
Inductive node :=
| NavigableString (s : str)
| Comment (s : str)
| Tag (name : str) (class_ : option (list str)) (contents : list node).

(** What the body of the [try] gives before the tree is read: the
    top-level nodes of the parsed page; a [requests.RequestException] of
    the request or of [raise_for_status]; or any other exception, of
    [urlparse] on the URL, of the request or of the parser. *)
Inductive response :=
| Page (soup : list node)
| RequestException (e : str)
| OtherException (e : str).

(** [scrape_webpage] returns a string or raises [Exception(message)]. *)
Inductive outcome :=
| Returned (text : str)
| Raised (message : str).

(** [tag.get_text()]: the strings below the node, in document order;
    comments are left out. *)
Fixpoint get_text (n : node) : str :=
  match n with
  | NavigableString s => s
  | Comment _ => []
  | Tag _ _ cs => concat (List.map get_text cs)
  end.

(** The node and everything below it, in document order. *)
Fixpoint self_and_descendants (n : node) : list node :=
  n :: match n with
       | Tag _ _ cs => concat (List.map self_and_descendants cs)
       | _ => []
       end.

Definition descendants (contents : list node) : list node :=
  concat (List.map self_and_descendants contents).

Definition tag_named (names : list str) (n : node) : bool :=
  match n with
  | Tag name _ _ => bool_decide (name ∈ names)
  | _ => false
  end.

(** [root.find_all(...)] and [root.find(...)], for the children of the
    root. *)
Definition find_all (p : node → bool) (contents : list node) : list node :=
  filter (λ n, p n) (descendants contents).

Definition find (p : node → bool) (contents : list node) : option node :=
  head (find_all p contents).

(** [for t in soup(names): t.decompose()]: every tag with one of the
    names is removed from the tree, with all that is below it. *)
Fixpoint decompose (names : list str) (n : node) : list node :=
  match n with
  | Tag name cls cs =>
      if bool_decide (name ∈ names) then []
      else [Tag name cls (concat (List.map (decompose names) cs))]
  | _ => [n]
  end.

Definition decompose_all (names : list str) (soup : list node) : list node :=
  concat (List.map (decompose names) soup).

(** [a or b] on the results of [find]: a found tag is always truthy. *)
Definition or_else {A} (a : option A) (b : option A) : option A :=
  match a with
  | Some x => Some x
  | None => b
  end.

(** ['#' * int(name[1])] for a heading name. *)
Definition heading_marker (name : str) : str :=
  match name !! 1%nat with
  | Some d => replicate (N.to_nat (d - 48)) HASH
  | None => []
  end.

(** The elements taken out of the tree before anything is read. *)
Definition removed_tags : list str :=
  [lit "script"; lit "style"; lit "nav"; lit "footer"; lit "header"].

Definition sentinel : str :=
  lit "No content could be extracted from this webpage.".

Section Scrape.

Variable lower : str → str.
Variable is_space : char → bool.
(** [re.compile(r'content|main|article', re.I).search], as a test *)
Variable class_re_search : str → bool.
(** [urlparse(url).scheme] and [urlparse(url).netloc] *)
Variable url_scheme : str → str.
Variable url_netloc : str → str.
(** the request with the browser headers and the 10 second timeout, and
    the parse of its body *)
Variable http_get : str → response.

(** [soup.find('div', class_=re.compile(...))]: the expression matches
    one of the values of the attribute, or the values joined by a
    space. *)
Definition div_with_content_class (n : node) : bool :=
  match n with
  | Tag name (Some values) _ =>
      bool_decide (name = lit "div")
      && (existsb class_re_search values || class_re_search (join [SP] values))
  | _ => false
  end.

(** One turn of the loop over [main_content.find_all([...])]: the
    blocks the tag appends to [content]. *)
Definition blocks_of (tag : node) : list str :=
  match tag with
  | Tag name _ _ =>
      let text := strip is_space (get_text tag) in
      if (length text <? 10)%nat then []
      else if existsb (λ word, contains (lower text) word)
                [lit "cookie"; lit "advertisement"; lit "subscribe"; lit "newsletter"]
      then []
      else if bool_decide (name ∈ [lit "h1"; lit "h2"; lit "h3"; lit "h4"])
      then
        if negb (bool_decide (text = []))
           && negb (existsb (λ p, startswith (lower text) p)
                      [lit "menu"; lit "navigation"; lit "footer"])
        then [heading_marker name ++ [SP] ++ text]
        else []
      else if bool_decide (name ∈ [lit "p"; lit "div"])
      then
        if negb (bool_decide (text = []))
           && (5 <? length (split is_space text))%nat
        then [text]
        else []
      else []
  | _ => []
  end.

(** The list [content] at the return statement, for the parsed page and
    the host of the URL as it was given. *)
Definition content_blocks (netloc : str) (soup : list node) : list str :=
  let soup := decompose_all removed_tags soup in
  let title_block :=
    match find (tag_named [lit "title"]) soup with
    | Some title => lit "# " ++ strip is_space (get_text title)
    | None => lit "# Scraped Content from " ++ netloc
    end in
  let main_content :=
    or_else (find (tag_named [lit "main"]) soup)
      (or_else (find (tag_named [lit "article"]) soup)
         (or_else (find div_with_content_class soup)
            (find (tag_named [lit "body"]) soup))) in
  let body_blocks :=
    match main_content with
    | Some (Tag _ _ cs) =>
        concat (List.map blocks_of
                  (find_all
                     (tag_named [lit "h1"; lit "h2"; lit "h3"; lit "h4";
                                 lit "p"; lit "div"]) cs))
    | _ => []
    end in
  title_block :: body_blocks.

Definition render (content : list str) : str :=
  match content with
  | [] => sentinel
  | _ => join [LF; LF] content
  end.

(** The URL that is fetched: [https://] is put before a URL without a
    scheme. *)
Definition fetch_target (url : str) : str :=
  if bool_decide (url_scheme url = []) then lit "https://" ++ url else url.

(** The host is read from the URL as it was given, before the scheme is
    added. The two handlers raise anew, each with its own message. *)
Definition scrape_webpage (url : str) : outcome :=
  let netloc := url_netloc url in
  match http_get (fetch_target url) with
  | RequestException e => Raised (lit "Failed to fetch the webpage: " ++ e)
  | OtherException e => Raised (lit "Error processing the webpage: " ++ e)
  | Page soup => Returned (render (content_blocks netloc soup))
  end.

(** The title block in the words of the specification: the text of the
    title element when there is one and its text is not empty, and the
    fallback with the host otherwise. *)
Definition spec_title_block (netloc : str) (soup : list node) : str :=
  match find (tag_named [lit "title"]) (decompose_all removed_tags soup) with
  | Some title =>
      let text := strip is_space (get_text title) in
      if bool_decide (text = [])
      then lit "# Scraped Content from " ++ netloc
      else lit "# " ++ text
  | None => lit "# Scraped Content from " ++ netloc
  end.

End Scrape.

(** ** An excerpt of the tables, to run the model on

    The tables below are those of CPython for the code points U+0000 to
    U+00FF, with the two code points U+0130 (capital I with dot above)
    and U+0307 (combining dot above) added; the whitespace class is
    complete. Outside that range a character is treated as a symbol
    without case. The general statements below do not depend on them:
    they are proved for any tables, and the excerpt serves to run the
    model on documents of that range. *)

Definition in_range (lo hi c : char) : bool := (lo <=? c) && (c <=? hi).

(** The lowercase mapping of one code point. *)
Definition ucd_lower_char (c : char) : str :=
  if in_range 65 90 c then [c + 32]
  else if in_range 192 222 c && negb (c =? 215) then [c + 32]
  else if c =? 304 then [105; 775]
  else [c].

Definition ucd_lower (s : str) : str := concat (List.map ucd_lower_char s).

Definition ucd_is_digit (c : char) : bool := in_range 48 57 c.

Definition ucd_is_word (c : char) : bool :=
  in_range 48 57 c || in_range 65 90 c || (c =? 95) || in_range 97 122 c
  || (c =? 170) || in_range 178 179 c || (c =? 181) || in_range 185 186 c
  || in_range 188 190 c || in_range 192 214 c || in_range 216 246 c
  || in_range 248 255 c || (c =? 304).

Definition ucd_is_space (c : char) : bool :=
  in_range 9 13 c || in_range 28 32 c || (c =? 133) || (c =? 160)
  || (c =? 5760) || in_range 8192 8202 c || in_range 8232 8233 c
  || (c =? 8239) || (c =? 8287) || (c =? 12288).

(** The parser on a text of words and single spaces: the text itself.
    [clean_text] passes it nothing else. *)
Definition plain_soup_text (t : str) : str := t.

(** The tokenizer on a cleaned text without contractions: its words. *)
Definition ws_tokenize (t : str) : list str := split ucd_is_space t.

(** Some of the English stop words. *)
Definition stopwords_excerpt : list str :=
  [lit "the"; lit "are"; lit "and"; lit "over"; lit "is"; lit "a"; lit "of";
   lit "to"; lit "in"; lit "it"; lit "was"; lit "for"; lit "not"].

(** A table of word forms, as a function: the form of the table, or the
    word itself. *)
Fixpoint table_lookup (table : list (str * str)) (w : str) : str :=
  match table with
  | [] => w
  | (k, v) :: rest => if bool_decide (k = w) then v else table_lookup rest w
  end.

(** The stems and the lemmas of the words of the example sentence. *)
Definition stem_excerpt : str → str :=
  table_lookup
    [(lit "running", lit "run"); (lit "jumping", lit "jump");
     (lit "foxes", lit "fox"); (lit "dogs", lit "dog"); (lit "lazy", lit "lazi")].

Definition lemmatize_excerpt : str → str :=
  table_lookup [(lit "foxes", lit "fox"); (lit "dogs", lit "dog")].

(** [urlparse] on [https://host/path] and on a text without a scheme. *)
Definition https_scheme (url : str) : str :=
  if startswith url (lit "https://") then lit "https" else [].

Fixpoint up_to_slash (s : str) : str :=
  match s with
  | [] => []
  | c :: s' => if c =? 47 then [] else c :: up_to_slash s'
  end.

Definition https_netloc (url : str) : str :=
  if startswith url (lit "https://") then up_to_slash (drop 8 url) else [].

(** The class test on lowercase ASCII class names. *)
Definition ascii_class_search (cls : str) : bool :=
  existsb (λ p, contains (ucd_lower cls) p)
    [lit "content"; lit "main"; lit "article"].

(** A page whose body holds a navigation bar and a footer and nothing
    else, and a site that serves it. *)
Definition nav_footer_page : list node :=
  [Tag (lit "html") None
     [Tag (lit "body") None
        [Tag (lit "nav") None [NavigableString (lit "Home About Contact")];
         Tag (lit "footer") None [NavigableString (lit "Copyright 2024 Example")]]]].

(** A page with an empty title element and one paragraph. *)
Definition empty_title_page : list node :=
  [Tag (lit "html") None
     [Tag (lit "head") None [Tag (lit "title") None []];
      Tag (lit "body") None
        [Tag (lit "p") None
           [NavigableString (lit "This paragraph has more than five words.")]]]].

Definition example_site (url : str) : response :=
  if bool_decide (url = lit "https://example.com") then Page nav_footer_page
  else if bool_decide (url = lit "https://example.org") then Page empty_title_page
  else RequestException (lit "connection refused").

Definition example_sentence : str :=
  lit "The quick brown foxes are running and jumping over lazy dogs 123!".

(** The capital I with dot above, followed by the letter a. *)
Definition dotted_i_a : str := [304; 97].

Definition example_pipeline : list str → PipelineResult :=
  preprocess_text ucd_lower ucd_is_digit ucd_is_word ucd_is_space plain_soup_text
    ws_tokenize stopwords_excerpt stem_excerpt lemmatize_excerpt.

Definition example_scrape : str → outcome :=
  scrape_webpage ucd_lower ucd_is_space ascii_class_search
    https_scheme https_netloc example_site.

Definition ucd_clean : str → str :=
  clean_text ucd_lower ucd_is_digit ucd_is_word ucd_is_space plain_soup_text.

(** ** The rest of [app.py]: resources, statistics, the page script *)

(** [s.splitlines()]: the characters that end a line, and the lines;
    a carriage return followed by a line feed ends one line. [cur] is the
    line being read, in reverse. *)
Definition is_linebreak (c : char) : bool :=
  in_range 10 13 c || in_range 28 30 c || (c =? 133)
  || (c =? 8232) || (c =? 8233).

Fixpoint splitlines_go (cur : str) (s : str) : list str :=
  match s with
  | [] => match cur with [] => [] | _ => [reverse cur] end
  | c :: s' =>
      if is_linebreak c
      then reverse cur ::
           match s' with
           | c' :: s'' =>
               if (c =? 13) && (c' =? 10)
               then splitlines_go [] s''
               else splitlines_go [] s'
           | [] => []
           end
      else splitlines_go (c :: cur) s'
  end.

Definition splitlines (s : str) : list str := splitlines_go [] s.

(** The sub-list of [find_all] in the loop of [scrape_webpage]. *)
Definition block_tags : list str :=
  [lit "h1"; lit "h2"; lit "h3"; lit "h4"; lit "p"; lit "div"].

Definition boilerplate_words : list str :=
  [lit "cookie"; lit "advertisement"; lit "subscribe"; lit "newsletter"].

(** The resource table of [download_nltk_data]: the name to download and
    the path to look for. *)
Definition downloads : list (str * str) :=
  [(lit "punkt_tab", lit "tokenizers/punkt_tab");
   (lit "punkt", lit "tokenizers/punkt");
   (lit "stopwords", lit "corpora/stopwords");
   (lit "wordnet", lit "corpora/wordnet");
   (lit "omw-1.4", lit "corpora/omw-1.4")].

Section Resources.

(** The state of the NLTK data directories. *)
Variable env : Type.
(** [nltk.data.find(path)]: [true] when it returns, [false] when it
    raises [LookupError]. *)
Variable data_find : env → str → bool.
(** The directories after [nltk.download(name, quiet=True)], whether it
    returned or raised: the result and the exception are both dropped. *)
Variable download : env → str → env.

(** One turn of the loop; the second component lists the names handed to
    [nltk.download] so far. *)
Definition download_step (st : env * list str) (d : str * str) : env * list str :=
  if data_find st.1 d.2 then st else (download st.1 d.1, st.2 ++ [d.1]).

Definition download_nltk_data (e : env) : env * list str :=
  foldl download_step (e, []) downloads.

End Resources.

(** What the script can die of: the decoding of an uploaded file and an
    index out of range. *)
Inductive error :=
| UnicodeDecodeError
| IndexError.

Definition and_then {A B} (x : error + A) (f : A → error + B) : error + B :=
  match x with
  | inl e => inl e
  | inr a => f a
  end.

(** [l[0]] *)
Definition index0 {A} (l : list A) : error + A :=
  match l with
  | [] => inl IndexError
  | x :: _ => inr x
  end.

(** [doc[:50] if len(doc) > 50 else doc] *)
Definition sample (doc : list str) : list str :=
  if (50 <? length doc)%nat then take 50 doc else doc.

Inductive input_method :=
| EnterText
| UploadFile
| ScrapeWebpage.

(** What the widgets return in one run of the script. [process_btn] is
    the value of the processing button where the script reaches it. *)
Record widgets := {
  input_type : input_method;
  user_text : str;
  uploaded_file : option (list N);
  web_url : str;
  scrape_btn : bool;
  process_btn : bool
}.

(** The four metrics above the processing button. *)
Record metrics := {
  characters : nat;
  words : nat;
  lines : nat;
  unique_words : nat
}.

(** What the tabs and the two download buttons are given. *)
Record results_view := {
  cleaned_output : str;
  tokenized_sample : list str;
  total_tokens : nat;
  filtered_sample : list str;
  remaining_tokens : nat;
  stemmed_sample : list str;
  stemmed_tokens : nat;
  lemmatized_sample : list str;
  lemmatized_tokens : nat;
  processed_text : str;
  tokens_text : str
}.

(** One run of the script: the corpus it built, the warning of a failed
    scrape, and what it showed. *)
Record page := {
  corpus_built : list str;
  warning : option str;
  text_stats : option metrics;
  results : option results_view
}.

Section Script.

Variable lower : str → str.
Variable is_digit is_word is_space : char → bool.
Variable soup_text : str → str.
Variable word_tokenize : str → list str.
Variable stopwords_english : list str.
Variable stem : str → str.
Variable lemmatize : str → str.
Variable class_re_search : str → bool.
Variable url_scheme : str → str.
Variable url_netloc : str → str.
Variable http_get : str → response.
(** [bytes.decode("utf-8")], [None] when it raises *)
Variable decode_utf8 : list N → option (list N).

(** The loop body of [scrape_webpage] over the children of the content
    root. *)
Definition extract_blocks (cs : list node) : list str :=
  concat (List.map (blocks_of lower is_space)
            (find_all (tag_named block_tags) cs)).

(** The corpus after the input section, and the warning shown when the
    scrape raised. *)
Definition read_input (w : widgets) : error + (list str * option str) :=
  match input_type w with
  | EnterText =>
      inr (if bool_decide (user_text w = []) then [] else [user_text w], None)
  | UploadFile =>
      match uploaded_file w with
      | None => inr ([], None)
      | Some bytes =>
          match decode_utf8 bytes with
          | None => inl UnicodeDecodeError
          | Some file_content => inr ([file_content], None)
          end
      end
  | ScrapeWebpage =>
      if negb (bool_decide (web_url w = [])) && scrape_btn w
      then
        match scrape_webpage lower is_space class_re_search
                url_scheme url_netloc http_get (web_url w) with
        | Returned scraped_content => inr ([scraped_content], None)
        | Raised message => inr ([], Some message)
        end
      else inr ([], None)
  end.

Definition metrics_of (text : str) : metrics :=
  {| characters := length text;
     words := length (split is_space text);
     lines := length (splitlines text);
     unique_words :=
       size (list_to_set (split is_space (lower text)) : gset (list N)) |}.

(** The tabs and the downloads, from the result of the pipeline. *)
Definition show_results (r : PipelineResult) : error + results_view :=
  and_then (index0 (cleaned_corpus r)) (λ cleaned0,
  and_then (index0 (tokenized_corpus r)) (λ tokenized0,
  and_then (index0 (filtered_corpus r)) (λ filtered0,
  and_then (index0 (stemmed_corpus r)) (λ stemmed0,
  and_then (index0 (lemmatized_corpus r)) (λ lemmatized0,
  inr {| cleaned_output := cleaned0;
         tokenized_sample := sample tokenized0;
         total_tokens := length tokenized0;
         filtered_sample := sample filtered0;
         remaining_tokens := length filtered0;
         stemmed_sample := sample stemmed0;
         stemmed_tokens := length stemmed0;
         lemmatized_sample := sample lemmatized0;
         lemmatized_tokens := length lemmatized0;
         processed_text := join [SP] lemmatized0;
         tokens_text := join [LF] lemmatized0 |}))))).

(** The script from the input section to the downloads. *)
Definition run_script (w : widgets) : error + page :=
  and_then (read_input w) (λ input,
  match input.1 with
  | [] =>
      inr {| corpus_built := []; warning := input.2;
             text_stats := None; results := None |}
  | first :: _ =>
      if process_btn w
      then
        and_then
          (show_results
             (preprocess_text lower is_digit is_word is_space soup_text
                word_tokenize stopwords_english stem lemmatize input.1))
          (λ view,
             inr {| corpus_built := input.1; warning := input.2;
                    text_stats := Some (metrics_of first);
                    results := Some view |})
      else
        inr {| corpus_built := input.1; warning := input.2;
               text_stats := Some (metrics_of first); results := None |}
  end).

End Script.

(** ** More of the excerpt, for the script *)

(** The decoder on a file of ASCII bytes; the excerpt takes no other
    file. *)
Definition ascii_decode (bytes : list N) : option (list N) :=
  if forallb (λ b, b <? 128) bytes then Some bytes else None.

Definition example_script : widgets → error + page :=
  run_script ucd_lower ucd_is_digit ucd_is_word ucd_is_space plain_soup_text
    ws_tokenize stopwords_excerpt stem_excerpt lemmatize_excerpt
    ascii_class_search https_scheme https_netloc example_site ascii_decode.

(** A machine without the data and without a network: nothing is found
    and a download changes nothing. *)
Definition offline_find (e : unit) (path : str) : bool := false.
Definition offline_download (e : unit) (name : str) : unit := e.

(** A paragraph of six words inside a division. *)
Definition wrapped_paragraph : node :=
  Tag (lit "div") (Some [lit "post"])
    [Tag (lit "p") None
       [NavigableString (lit "This paragraph has more than five words.")]].

(** A stand-in for the parser that drops what stands between ['<'] and
    ['>']; like the parser, it returns a text without markup as it is. *)
Fixpoint drop_tags (inside : bool) (s : str) : str :=
  match s with
  | [] => []
  | c :: s' =>
      if inside
      then drop_tags (negb (c =? 62)) s'
      else if c =? 60 then drop_tags true s' else c :: drop_tags false s'
  end.

(** A document of digits, punctuation and a space. *)
Definition digits_only : str := lit "123 !?".

(** The paragraph of [wrapped_paragraph]. *)
Definition example_paragraph : node :=
  Tag (lit "p") None
    [NavigableString (lit "This paragraph has more than five words.")].

(** Runs of the script: the example sentence typed in with the processing
    button pressed, an uploaded file that is not UTF-8, an empty uploaded
    file, and three runs in the scrape mode. *)
Definition typed_run : widgets :=
  {| input_type := EnterText; user_text := example_sentence;
     uploaded_file := None; web_url := []; scrape_btn := false;
     process_btn := true |}.

Definition bad_upload_run : widgets :=
  {| input_type := UploadFile; user_text := [];
     uploaded_file := Some [255]; web_url := []; scrape_btn := false;
     process_btn := false |}.


Definition scrape_run (url : str) (pressed : bool) : widgets :=
  {| input_type := ScrapeWebpage; user_text := [];
     uploaded_file := None; web_url := url; scrape_btn := pressed;
     process_btn := negb pressed |}.

(** A machine with all the data. *)
Definition installed_find (e : unit) (path : str) : bool := true.

(** A machine whose data directories are the set of the paths that are
    there, and a downloader that adds the path of the table. *)
Definition store_find (e : gset (list N)) (path : str) : bool :=
  bool_decide (path ∈ e).

Definition store_download (e : gset (list N)) (name : str) : gset (list N) :=
  e ∪ {[table_lookup downloads name]}.

(** ** The pipeline with the NLTK calls that can raise *)

(** The exception of an NLTK call that does not find its data. *)
Inductive lookup_error :=
| LookupError (resource : str).

(** A list comprehension whose body can raise: the first call that
    raises, in the order of the list, ends it. *)
Fixpoint try_map {A B} (f : A → lookup_error + B) (l : list A) : lookup_error + list B :=
  match l with
  | [] => inr []
  | x :: l' =>
      match f x with
      | inl e => inl e
      | inr y =>
          match try_map f l' with
          | inl e => inl e
          | inr ys => inr (y :: ys)
          end
      end
  end.

(** What a call returned. *)
Definition returned {A} (default : A) (x : lookup_error + A) : A :=
  match x with
  | inr a => a
  | inl _ => default
  end.

Section PipelineRaising.

Variable lower : str → str.
Variable is_digit is_word is_space : char → bool.
Variable soup_text : str → str.
(** [word_tokenize], [stopwords.words('english')] and
    [WordNetLemmatizer().lemmatize], each of which raises [LookupError]
    when its data is not installed; the stemmer needs no data. *)
Variable nltk_word_tokenize : str → lookup_error + list str.
Variable nltk_stopwords : lookup_error + list str.
Variable stem : str → str.
Variable nltk_lemmatize : str → lookup_error + str.

(** [preprocess_text] as it runs: the documents are cleaned, then
    tokenized one after the other, then the stop words are read, and the
    lemmatizer is called on every filtered token in turn; the function
    has no handler, so the first exception leaves it. *)
Definition try_preprocess_text (corpus : list str) : lookup_error + PipelineResult :=
  let cleaned := clean_text lower is_digit is_word is_space soup_text <$> corpus in
  match try_map nltk_word_tokenize cleaned with
  | inl e => inl e
  | inr tokenized =>
      match nltk_stopwords with
      | inl e => inl e
      | inr stopwords_english =>
          let stop_words : gset (list N) := list_to_set stopwords_english in
          let filtered :=
            (λ doc : list (list N),
               filter (λ word, (word ∉ stop_words) ∧ (2 < length word)%nat) doc)
              <$> tokenized in
          let stemmed := (λ doc : list (list N), stem <$> doc) <$> filtered in
          match try_map (try_map nltk_lemmatize) filtered with
          | inl e => inl e
          | inr lemmatized =>
              inr {| cleaned_corpus := cleaned;
                     tokenized_corpus := tokenized;
                     filtered_corpus := filtered;
                     stemmed_corpus := stemmed;
                     lemmatized_corpus := lemmatized |}
          end
      end
  end.

End PipelineRaising.

(** An NLTK call on a machine: its value when the path of its data is
    found, [LookupError] when it is not. *)
Definition found_or_raise {A} (found : bool) (resource : str) (value : A) : lookup_error + A :=
  if found then inr value else inl (LookupError resource).

(** The pipeline on the machine with all the data, and on the machine
    without the data and without a network, which is as the loader leaves
    it. *)
Definition installed_pipeline : list str → lookup_error + PipelineResult :=
  try_preprocess_text ucd_lower ucd_is_digit ucd_is_word ucd_is_space
    plain_soup_text
    (λ d, found_or_raise (installed_find () (lit "tokenizers/punkt_tab"))
            (lit "punkt_tab") (ws_tokenize d))
    (found_or_raise (installed_find () (lit "corpora/stopwords"))
       (lit "stopwords") stopwords_excerpt)
    stem_excerpt
    (λ w, found_or_raise (installed_find () (lit "corpora/wordnet"))
            (lit "wordnet") (lemmatize_excerpt w)).

Definition offline_pipeline : list str → lookup_error + PipelineResult :=
  try_preprocess_text ucd_lower ucd_is_digit ucd_is_word ucd_is_space
    plain_soup_text
    (λ d, found_or_raise (offline_find () (lit "tokenizers/punkt_tab"))
            (lit "punkt_tab") (ws_tokenize d))
    (found_or_raise (offline_find () (lit "corpora/stopwords"))
       (lit "stopwords") stopwords_excerpt)
    stem_excerpt
    (λ w, found_or_raise (offline_find () (lit "corpora/wordnet"))
            (lit "wordnet") (lemmatize_excerpt w)).

(** A site whose page the parser rejects. *)
Definition broken_site (url : str) : response :=
  OtherException (lit "parser rejected the markup").

(** ** Facts about the string operations *)

Lemma no_adjacent_cons cls a b t :
  no_adjacent cls (a :: b :: t)
  = negb (cls a && cls b) && no_adjacent cls (b :: t).
Proof. reflexivity. Qed.

Lemma sub_runs_elem cls repl prev s c :
  c ∈ sub_runs cls repl prev s → c ∈ repl ∨ (c ∈ s ∧ cls c = false).
Proof.
  revert prev. induction s as [|a s IH]; intros prev; simpl.
  - intros H. by apply elem_of_nil in H.
  - destruct (cls a) eqn:Ha.
    + rewrite elem_of_app. intros [H|H].
      * destruct prev; [by apply elem_of_nil in H | by left].
      * destruct (IH _ H) as [?|[? ?]]; [by left|right].
        split; [by apply elem_of_cons; right | done].
    + rewrite elem_of_cons. intros [->|H].
      * right. split; [by apply elem_of_cons; left | done].
      * destruct (IH _ H) as [?|[? ?]]; [by left|right].
        split; [by apply elem_of_cons; right | done].
Qed.

Lemma sub_runs_length cls repl prev s :
  (length repl ≤ 1)%nat →
  (length (sub_runs cls repl prev s) ≤ length s)%nat.
Proof.
  intros Hrepl. revert prev.
  induction s as [|a s IH]; intros prev; simpl; [done|].
  destruct (cls a).
  - rewrite length_app. specialize (IH true).
    destruct prev; simpl; lia.
  - simpl. specialize (IH false). lia.
Qed.

(** Without a character of the class, nothing is replaced. *)
Lemma sub_runs_none cls repl prev s :
  (∀ c, c ∈ s → cls c = false) → sub_runs cls repl prev s = s.
Proof.
  revert prev. induction s as [|a s IH]; intros prev H; simpl; [done|].
  rewrite (H a) by (apply elem_of_cons; by left).
  f_equal. apply IH. intros c Hc. apply H, elem_of_cons. by right.
Qed.

(** After the replacement by one character of the class, no two
    characters of the class are neighbours. *)
Lemma sub_runs_no_adjacent cls r prev s :
  cls r = true →
  no_adjacent cls (sub_runs cls [r] prev s) = true
  ∧ (prev = true → head_outside cls (sub_runs cls [r] prev s)).
Proof.
  intros Hr. revert prev.
  induction s as [|a s IH]; intros prev; [done|].
  cbn [sub_runs]. destruct (cls a) eqn:Ha.
  - destruct (IH true) as [IH1 IH2]. specialize (IH2 eq_refl).
    destruct prev; cbn [app]; [done|].
    split; [|done].
    destruct (sub_runs cls [r] true s) as [|b t]; [done|].
    cbn [head_outside] in IH2.
    by rewrite no_adjacent_cons, IH2, andb_false_r.
  - destruct (IH false) as [IH1 _].
    split; [|by intros _].
    destruct (sub_runs cls [r] false s) as [|b t]; [done|].
    by rewrite no_adjacent_cons, Ha.
Qed.

(** A text whose runs of the class are single copies of [r] is left as
    it is. *)
Lemma sub_runs_id cls r prev s :
  (∀ c, c ∈ s → cls c = true → c = r) →
  no_adjacent cls s = true →
  (prev = true → head_outside cls s) →
  sub_runs cls [r] prev s = s.
Proof.
  revert prev. induction s as [|a s IH]; intros prev Hr Hadj Hhead; simpl; [done|].
  assert (Htail : no_adjacent cls s = true).
  { destruct s as [|b t]; [done|]. simpl in Hadj.
    by apply andb_true_iff in Hadj as [_ ?]. }
  assert (Hr' : ∀ c, c ∈ s → cls c = true → c = r).
  { intros c Hc. apply Hr, elem_of_cons. by right. }
  destruct (cls a) eqn:Ha.
  - destruct prev.
    { specialize (Hhead eq_refl). simpl in Hhead. congruence. }
    rewrite (Hr a) by (done || apply elem_of_cons; by left).
    simpl. f_equal. apply IH; [done..|].
    intros _. destruct s as [|b t]; [done|]. simpl in *.
    apply andb_true_iff in Hadj as [Hab _].
    rewrite Ha in Hab. simpl in Hab. by apply negb_true_iff in Hab.
  - f_equal. apply IH; [done..|]. intros ?; discriminate.
Qed.

Lemma no_adjacent_mono (cls cls' : char → bool) s :
  (∀ c, c ∈ s → cls' c = true → cls c = true) →
  no_adjacent cls s = true → no_adjacent cls' s = true.
Proof.
  induction s as [|a s IH]; intros Hsub Hadj; [done|].
  destruct s as [|b t]; [done|].
  simpl in *. apply andb_true_iff in Hadj as [Hab Ht].
  apply andb_true_iff. split.
  - apply negb_true_iff, andb_false_iff.
    apply negb_true_iff, andb_false_iff in Hab.
    destruct (cls' a) eqn:Ea; [|by left].
    destruct (cls' b) eqn:Eb; [|by right].
    assert (cls a = true) as Ha by (apply Hsub; [apply elem_of_cons; by left|done]).
    assert (cls b = true) as Hb.
    { apply Hsub; [|done]. apply elem_of_cons; right; apply elem_of_cons; by left. }
    rewrite Ha, Hb in Hab. by destruct Hab.
  - apply IH; [|done]. intros c Hc. apply Hsub, elem_of_cons. by right.
Qed.

Lemma no_adjacent_app_r cls s1 s2 :
  no_adjacent cls (s1 ++ s2) = true → no_adjacent cls s2 = true.
Proof.
  induction s1 as [|a s1 IH]; [done|].
  intros H. apply IH. simpl in H.
  destruct (s1 ++ s2) as [|b t]; [done|].
  by apply andb_true_iff in H as [_ ?].
Qed.

Lemma no_adjacent_app_l cls s1 s2 :
  no_adjacent cls (s1 ++ s2) = true → no_adjacent cls s1 = true.
Proof.
  induction s1 as [|a s1 IH]; [done|].
  intros H. destruct s1 as [|b t]; [done|].
  simpl in *. apply andb_true_iff in H as [Hab Ht].
  apply andb_true_iff. split; [done|]. by apply IH.
Qed.

(** Two neighbours found in a text are not both of the class. *)
Lemma no_adjacent_split cls s1 a b s2 :
  no_adjacent cls (s1 ++ a :: b :: s2) = true → cls a && cls b = false.
Proof.
  intros H. apply no_adjacent_app_r in H. simpl in H.
  apply andb_true_iff in H as [H _]. by apply negb_true_iff in H.
Qed.

Lemma translate_delete_none table s :
  (∀ c, c ∈ s → c ∉ table) → translate_delete table s = s.
Proof.
  unfold translate_delete. induction s as [|a s IH]; intros H; [done|].
  rewrite filter_cons_True by (apply H, elem_of_cons; by left).
  f_equal. apply IH. intros c Hc. apply H, elem_of_cons. by right.
Qed.

(** [lstrip] keeps a suffix and [rstrip] a prefix. *)
Lemma lstrip_suffix ws s : ∃ pre, s = pre ++ lstrip ws s.
Proof.
  induction s as [|a s [pre IH]]; simpl; [by exists []|].
  destruct (ws a); [|by exists []].
  exists (a :: pre). simpl. by f_equal.
Qed.

Lemma rstrip_prefix ws s : ∃ post, s = rstrip ws s ++ post.
Proof.
  induction s as [|a s [post IH]]; simpl; [by exists []|].
  destruct (rstrip ws s) as [|b r] eqn:E.
  - destruct (ws a); [exists (a :: s) | exists s]; done.
  - exists post. simpl. f_equal. exact IH.
Qed.

Lemma strip_middle ws s : ∃ pre post, s = pre ++ strip ws s ++ post.
Proof.
  unfold strip. destruct (lstrip_suffix ws s) as [pre Hpre].
  destruct (rstrip_prefix ws (lstrip ws s)) as [post Hpost].
  exists pre, post. by rewrite <- Hpost.
Qed.

Lemma strip_elem ws s c : c ∈ strip ws s → c ∈ s.
Proof.
  destruct (strip_middle ws s) as (pre & post & H). intros Hc.
  rewrite H, !elem_of_app. right; by left.
Qed.

Lemma strip_length ws s : (length (strip ws s) ≤ length s)%nat.
Proof.
  destruct (strip_middle ws s) as (pre & post & H).
  rewrite H at 2. rewrite !length_app. lia.
Qed.

Lemma strip_no_adjacent cls ws s :
  no_adjacent cls s = true → no_adjacent cls (strip ws s) = true.
Proof.
  destruct (strip_middle ws s) as (pre & post & H). intros Hs.
  rewrite H in Hs. by apply no_adjacent_app_r, no_adjacent_app_l in Hs.
Qed.

Lemma lstrip_head ws s : head_outside ws (lstrip ws s).
Proof.
  induction s as [|a s IH]; simpl; [done|].
  destruct (ws a) eqn:E; [done|]. exact E.
Qed.

Lemma lstrip_id ws s : head_outside ws s → lstrip ws s = s.
Proof. destruct s as [|a s]; simpl; [done|]. by intros ->. Qed.

Lemma rstrip_head ws s : head_outside ws s → head_outside ws (rstrip ws s).
Proof.
  destruct s as [|a s]; simpl; [done|]. intros Ha.
  destruct (rstrip ws s); [by rewrite Ha|done].
Qed.

Lemma rstrip_rstrip ws s : rstrip ws (rstrip ws s) = rstrip ws s.
Proof.
  induction s as [|a s IH]; simpl; [done|].
  destruct (rstrip ws s) as [|b r] eqn:E.
  - destruct (ws a) eqn:Ha; simpl; [done|]. by rewrite Ha.
  - change (rstrip ws (a :: b :: r)) with
      (match rstrip ws (b :: r) with
       | [] => if ws a then [] else [a]
       | x :: t => a :: x :: t
       end).
    by rewrite IH.
Qed.

Lemma strip_strip ws s : strip ws (strip ws s) = strip ws s.
Proof.
  unfold strip.
  rewrite (lstrip_id ws (rstrip ws (lstrip ws s))).
  - apply rstrip_rstrip.
  - apply rstrip_head, lstrip_head.
Qed.

(** ** The cleaning stage: what the cleaned text looks like *)

Lemma space_not_punctuation : SP ∉ punctuation.
Proof.
  unfold punctuation, SP. rewrite !elem_of_cons, elem_of_nil.
  intros H. repeat (destruct H as [H|H]; [discriminate H|]). exact H.
Qed.

Section CleanProofs.

Variable lower : str → str.
Variable is_digit is_word is_space : char → bool.
Variable soup_text : str → str.

(** What the proofs use of the runtime: a lowercased text is made of
    characters that lowercasing leaves alone, and a text made of such
    characters is its own lowercase; the space is whitespace, is not a
    digit and has no case; the parser returns a text made of word
    characters and single spaces as it is (such a text has no markup,
    and the parser rewrites a text only where it is all whitespace and
    not one space). *)
Hypothesis lower_stable : ∀ s c, c ∈ lower s → lower [c] = [c].
Hypothesis lower_fixed : ∀ s, (∀ c, c ∈ s → lower [c] = [c]) → lower s = s.
Hypothesis lower_space : lower [SP] = [SP].
Hypothesis digit_space : is_digit SP = false.
Hypothesis space_space : is_space SP = true.
Hypothesis soup_text_words :
  ∀ t, (∀ c, c ∈ t → c = SP ∨ is_word c = true) →
       no_adjacent (λ c, c =? SP) t = true →
       soup_text t = t.

Local Abbreviation clean := (clean_text lower is_digit is_word is_space soup_text).

(** The text handed to the parser: the first five assignments. *)
Local Abbreviation spaced d :=
  (re_sub_plus is_space [SP]
     (re_sub_plus (λ c, negb (is_word c)) [SP]
        (translate_delete punctuation
           (re_sub_plus is_digit [] (lower d))))).

Lemma spaced_elem d c :
  c ∈ spaced d →
  c = SP
  ∨ (c ∈ lower d ∧ is_digit c = false ∧ (c ∉ punctuation)
     ∧ is_word c = true ∧ is_space c = false).
Proof.
  unfold re_sub_plus, translate_delete. intros H.
  apply sub_runs_elem in H as [H|[H Hs]].
  { left. by apply list_elem_of_singleton in H. }
  apply sub_runs_elem in H as [H|[H Hw]].
  { left. by apply list_elem_of_singleton in H. }
  apply list_elem_of_filter in H as [Hp H].
  apply sub_runs_elem in H as [H|[H Hd]].
  { by apply elem_of_nil in H. }
  right. repeat split; try done. by apply negb_false_iff in Hw.
Qed.

Lemma spaced_no_adjacent d : no_adjacent is_space (spaced d) = true.
Proof. unfold re_sub_plus at 1. by apply sub_runs_no_adjacent. Qed.

Lemma spaced_length d : (length (spaced d) ≤ length (lower d))%nat.
Proof.
  unfold re_sub_plus, translate_delete.
  etrans; [apply sub_runs_length; simpl; lia|].
  etrans; [apply sub_runs_length; simpl; lia|].
  etrans; [apply length_filter|].
  apply sub_runs_length; simpl; lia.
Qed.

(** The parser is handed words and single spaces, so it changes
    nothing. *)
Lemma clean_text_spaced d : clean d = strip is_space (spaced d).
Proof.
  unfold clean_text. f_equal. apply soup_text_words.
  - intros c [->|(_ & _ & _ & H & _)]%spaced_elem; [by left|by right].
  - apply (no_adjacent_mono is_space); [|apply spaced_no_adjacent].
    intros c _ ->%N.eqb_eq. exact space_space.
Qed.

Lemma clean_text_elem d c :
  c ∈ clean d →
  c = SP
  ∨ (c ∈ lower d ∧ is_digit c = false ∧ (c ∉ punctuation)
     ∧ is_word c = true ∧ is_space c = false).
Proof. rewrite clean_text_spaced. intros H%strip_elem. by apply spaced_elem. Qed.

Lemma clean_text_no_adjacent d : no_adjacent is_space (clean d) = true.
Proof. rewrite clean_text_spaced. apply strip_no_adjacent, spaced_no_adjacent. Qed.

(** C5: the cleaned text holds no digit, no punctuation character and
    no two spaces in a row. *)
Theorem clean_text_no_digit_punctuation_double_space d :
  let cleaned := clean_text lower is_digit is_word is_space soup_text d in
  (∀ c, c ∈ cleaned → is_digit c = false)
  ∧ (∀ c, c ∈ cleaned → c ∉ punctuation)
  ∧ ¬ (∃ s1 s2, cleaned = s1 ++ [SP; SP] ++ s2).
Proof.
  intros cleaned. subst cleaned. split; [|split].
  - by intros c [->|(_ & H & _)]%clean_text_elem.
  - intros c [->|(_ & _ & H & _)]%clean_text_elem;
      [apply space_not_punctuation|done].
  - intros (s1 & s2 & H).
    pose proof (clean_text_no_adjacent d) as Hadj. rewrite H in Hadj.
    apply no_adjacent_split in Hadj. by rewrite space_space in Hadj.
Qed.

(** A cleaned text is cleaned to itself. *)
Lemma clean_text_fixed r :
  (∀ c, c ∈ r → lower [c] = [c]) →
  (∀ c, c ∈ r → is_digit c = false) →
  (∀ c, c ∈ r → c ∉ punctuation) →
  (∀ c, c ∈ r → c = SP ∨ (is_word c = true ∧ is_space c = false)) →
  no_adjacent is_space r = true →
  strip is_space r = r →
  clean r = r.
Proof.
  intros Hlow Hdig Hpun Hcls Hadj Hstrip.
  rewrite clean_text_spaced.
  rewrite (lower_fixed r Hlow).
  unfold re_sub_plus at 3. rewrite (sub_runs_none is_digit) by done.
  rewrite translate_delete_none by done.
  unfold re_sub_plus at 2. rewrite sub_runs_id; [| | |done].
  - unfold re_sub_plus. rewrite sub_runs_id; [done| |done|done].
    intros c Hc Hs. destruct (Hcls c Hc) as [?|[_ ?]]; [done|congruence].
  - intros c Hc Hw. apply negb_true_iff in Hw.
    destruct (Hcls c Hc) as [?|[? _]]; [done|congruence].
  - apply (no_adjacent_mono is_space); [|done].
    intros c Hc Hw. apply negb_true_iff in Hw.
    destruct (Hcls c Hc) as [->|[? _]]; [done|congruence].
Qed.

(** C6: cleaning a cleaned text changes nothing. *)
Theorem clean_text_idempotent d :
  clean_text lower is_digit is_word is_space soup_text
    (clean_text lower is_digit is_word is_space soup_text d)
  = clean_text lower is_digit is_word is_space soup_text d.
Proof.
  apply clean_text_fixed.
  - intros c [->|(H & _)]%clean_text_elem; [done|]. by apply lower_stable in H.
  - by intros c [->|(_ & H & _)]%clean_text_elem.
  - intros c [->|(_ & _ & H & _)]%clean_text_elem;
      [apply space_not_punctuation|done].
  - intros c [->|(_ & _ & _ & ? & ?)]%clean_text_elem; [by left|by right].
  - apply clean_text_no_adjacent.
  - rewrite clean_text_spaced. apply strip_strip.
Qed.

(** C7, as the code has it: the cleaned text is no longer than the
    document when lowercasing does not make the document longer. *)
Theorem clean_text_length d :
  (length (lower d) ≤ length d)%nat →
  (length (clean_text lower is_digit is_word is_space soup_text d)
   ≤ length d)%nat.
Proof.
  intros H. rewrite clean_text_spaced.
  etrans; [apply strip_length|]. etrans; [apply spaced_length|]. done.
Qed.

End CleanProofs.

(** ** The pipeline *)

Section PipelineProofs.

Variable lower : str → str.
Variable is_digit is_word is_space : char → bool.
Variable soup_text : str → str.
Variable word_tokenize : str → list str.
Variable stopwords_english : list str.
Variable stem : str → str.
Variable lemmatize : str → str.

(** On the empty text: lowercasing, the parser and the tokenizer have
    nothing to return. *)
Hypothesis lower_nil : lower [] = [].
Hypothesis soup_text_nil : soup_text [] = [].
Hypothesis word_tokenize_nil : word_tokenize [] = [].

Local Abbreviation clean := (clean_text lower is_digit is_word is_space soup_text).
Local Abbreviation run :=
  (preprocess_text lower is_digit is_word is_space soup_text
     word_tokenize stopwords_english stem lemmatize).
Local Abbreviation stop_words := (list_to_set stopwords_english : gset (list N)).
Local Abbreviation keep :=
  (λ word : list N, (word ∉ stop_words) ∧ (2 < length word)%nat).

(** Each stage at index [i], from the stage before it. *)
Lemma cleaned_lookup corpus i :
  cleaned_corpus (run corpus) !! i = clean <$> corpus !! i.
Proof. simpl. apply list_lookup_fmap. Qed.

Lemma tokenized_lookup corpus i :
  tokenized_corpus (run corpus) !! i
  = word_tokenize <$> cleaned_corpus (run corpus) !! i.
Proof. simpl. apply list_lookup_fmap. Qed.

Lemma filtered_lookup corpus i :
  filtered_corpus (run corpus) !! i
  = filter keep <$> tokenized_corpus (run corpus) !! i.
Proof. simpl. apply list_lookup_fmap. Qed.

Lemma stemmed_lookup corpus i :
  stemmed_corpus (run corpus) !! i
  = fmap stem <$> filtered_corpus (run corpus) !! i.
Proof. simpl. apply list_lookup_fmap. Qed.

Lemma lemmatized_lookup corpus i :
  lemmatized_corpus (run corpus) !! i
  = fmap lemmatize <$> filtered_corpus (run corpus) !! i.
Proof. simpl. apply list_lookup_fmap. Qed.

(** C1: the five corpora have the length of the input corpus, and the
    entry at each index comes from the document at that index. *)
Theorem preprocess_text_aligned corpus :
  let result :=
    preprocess_text lower is_digit is_word is_space soup_text
      word_tokenize stopwords_english stem lemmatize corpus in
  length (cleaned_corpus result) = length corpus
  ∧ length (tokenized_corpus result) = length corpus
  ∧ length (filtered_corpus result) = length corpus
  ∧ length (stemmed_corpus result) = length corpus
  ∧ length (lemmatized_corpus result) = length corpus
  ∧ ∀ i,
      cleaned_corpus result !! i = clean <$> corpus !! i
      ∧ tokenized_corpus result !! i
        = (λ d, word_tokenize (clean d)) <$> corpus !! i
      ∧ filtered_corpus result !! i
        = (λ d, filter keep (word_tokenize (clean d))) <$> corpus !! i
      ∧ stemmed_corpus result !! i
        = (λ d, stem <$> filter keep (word_tokenize (clean d))) <$> corpus !! i
      ∧ lemmatized_corpus result !! i
        = (λ d, lemmatize <$> filter keep (word_tokenize (clean d)))
            <$> corpus !! i.
Proof.
  simpl. rewrite !length_fmap. repeat split; try done.
  all: rewrite !list_lookup_fmap; by destruct (corpus !! i).
Qed.

(** C2: a token is in the filtered document exactly when it is in the
    tokenized document, is not a stop word and has more than two
    characters. *)
Theorem filtered_tokens corpus i (tokens filtered : list (list N)) :
  let result :=
    preprocess_text lower is_digit is_word is_space soup_text
      word_tokenize stopwords_english stem lemmatize corpus in
  tokenized_corpus result !! i = Some tokens →
  filtered_corpus result !! i = Some filtered →
  ∀ word,
    word ∈ filtered
    ↔ word ∈ tokens ∧ (word ∉ stop_words) ∧ (2 < length word)%nat.
Proof.
  intros result Ht Hf word. subst result. rewrite filtered_lookup, Ht in Hf.
  injection Hf as <-. rewrite list_elem_of_filter. tauto.
Qed.

(** C3: the stemmed and the lemmatized document are both mapped from the
    filtered document, token by token, and have its length. *)
Theorem stemmed_lemmatized_from_filtered corpus i (filtered : list (list N)) :
  let result :=
    preprocess_text lower is_digit is_word is_space soup_text
      word_tokenize stopwords_english stem lemmatize corpus in
  filtered_corpus result !! i = Some filtered →
  stemmed_corpus result !! i = Some (stem <$> filtered)
  ∧ lemmatized_corpus result !! i = Some (lemmatize <$> filtered)
  ∧ length (stem <$> filtered) = length filtered
  ∧ length (lemmatize <$> filtered) = length filtered.
Proof.
  intros result Hf. subst result.
  rewrite stemmed_lookup, lemmatized_lookup, Hf, !length_fmap. done.
Qed.

Lemma clean_text_nil : clean [] = [].
Proof.
  unfold clean_text. rewrite lower_nil. cbn. by rewrite soup_text_nil.
Qed.

(** In the result of the calls that returned, every document of the
    corpus has an entry in each of the five corpora, and the empty
    document has the empty text and the empty token lists. *)
Lemma preprocess_text_entries corpus i :
  let result :=
    preprocess_text lower is_digit is_word is_space soup_text
      word_tokenize stopwords_english stem lemmatize corpus in
  (∀ doc, corpus !! i = Some doc →
     ∃ cleaned tokens filtered stemmed lemmatized,
       cleaned_corpus result !! i = Some cleaned
       ∧ tokenized_corpus result !! i = Some tokens
       ∧ filtered_corpus result !! i = Some filtered
       ∧ stemmed_corpus result !! i = Some stemmed
       ∧ lemmatized_corpus result !! i = Some lemmatized)
  ∧ (corpus !! i = Some [] →
     cleaned_corpus result !! i = Some []
     ∧ tokenized_corpus result !! i = Some []
     ∧ filtered_corpus result !! i = Some []
     ∧ stemmed_corpus result !! i = Some []
     ∧ lemmatized_corpus result !! i = Some []).
Proof.
  intros result. subst result. split.
  - intros doc Hdoc.
    rewrite stemmed_lookup, lemmatized_lookup, filtered_lookup,
      tokenized_lookup, cleaned_lookup, Hdoc. simpl. eauto 10.
  - intros Hdoc.
    rewrite stemmed_lookup, lemmatized_lookup, filtered_lookup,
      tokenized_lookup, cleaned_lookup, Hdoc. simpl.
    rewrite clean_text_nil, word_tokenize_nil. done.
Qed.

(** The occurrences of a kept token are all kept. *)
Lemma filter_keeps_occurrences (P : list N → Prop) `{!∀ x, Decision (P x)}
    (tokens : list (list N)) word :
  P word →
  filter (λ x, x = word) (filter P tokens) = filter (λ x, x = word) tokens.
Proof.
  intros Hw. apply list_filter_filter_l. by intros x ->.
Qed.

(** C10: the filtered document is a subsequence of the tokenized one,
    every occurrence of a kept token is kept, and position [j] of the
    stemmed and of the lemmatized document comes from position [j] of the
    filtered one. *)
Theorem filtered_subsequence corpus i
    (tokens filtered stemmed lemmatized : list (list N)) :
  let result :=
    preprocess_text lower is_digit is_word is_space soup_text
      word_tokenize stopwords_english stem lemmatize corpus in
  tokenized_corpus result !! i = Some tokens →
  filtered_corpus result !! i = Some filtered →
  stemmed_corpus result !! i = Some stemmed →
  lemmatized_corpus result !! i = Some lemmatized →
  filtered `sublist_of` tokens
  ∧ (∀ word, word ∈ filtered →
       length (filter (λ x, x = word) filtered)
       = length (filter (λ x, x = word) tokens))
  ∧ (∀ j, stemmed !! j = stem <$> filtered !! j)
  ∧ (∀ j, lemmatized !! j = lemmatize <$> filtered !! j).
Proof.
  intros result Ht Hf Hs Hl. subst result.
  rewrite stemmed_lookup, Hf in Hs. rewrite lemmatized_lookup, Hf in Hl.
  rewrite filtered_lookup, Ht in Hf.
  injection Hf as <-. injection Hs as <-. injection Hl as <-.
  split; [apply sublist_filter|]. split; [|split].
  - intros word [Hw _]%list_elem_of_filter.
    by rewrite (filter_keeps_occurrences keep).
  - intros j. apply list_lookup_fmap.
  - intros j. apply list_lookup_fmap.
Qed.

End PipelineProofs.

(** ** The extractor *)

Lemma join_head sep p rest : head (join sep ((HASH :: p) :: rest)) = Some HASH.
Proof. by destruct rest. Qed.

Section ScrapeProofs.

Variable lower : str → str.
Variable is_space : char → bool.
Variable class_re_search : str → bool.
Variable url_scheme : str → str.
Variable url_netloc : str → str.
Variable http_get : str → response.

Local Abbreviation blocks := (content_blocks lower is_space class_re_search).
Local Abbreviation scrape :=
  (scrape_webpage lower is_space class_re_search url_scheme url_netloc http_get).

(** The title line is put in the list before anything else, whatever the
    page holds. *)
Lemma content_blocks_title netloc soup :
  ∃ body_blocks,
    blocks netloc soup
    = match find (tag_named [lit "title"]) (decompose_all removed_tags soup) with
      | Some title => lit "# " ++ strip is_space (get_text title)
      | None => lit "# Scraped Content from " ++ netloc
      end :: body_blocks.
Proof. unfold content_blocks. eauto. Qed.

(** The list is never empty, so the sentinel is never what is returned. *)
Lemma render_content_blocks_head netloc soup :
  head (render (blocks netloc soup)) = Some HASH.
Proof.
  destruct (content_blocks_title netloc soup) as [body ->].
  unfold render.
  destruct (find _ _); apply join_head.
Qed.

Lemma scrape_webpage_never_sentinel url : scrape url ≠ Returned sentinel.
Proof.
  unfold scrape_webpage. destruct (http_get _) as [soup|e|e]; [|done|done].
  intros H.
  pose proof (render_content_blocks_head (url_netloc url) soup) as Hhead.
  replace (render (blocks (url_netloc url) soup)) with sentinel in Hhead
    by congruence.
  discriminate Hhead.
Qed.

(** C8, as the code has it: when the page of a URL with a scheme is
    fetched, the first block is the text of the title element whenever
    there is one, empty or not, and the fallback with the host of the URL
    only when there is none. *)
Theorem scrape_webpage_title url soup :
  url_scheme url ≠ [] →
  http_get (fetch_target url_scheme url) = Page soup →
  ∃ body_blocks,
    scrape_webpage lower is_space class_re_search url_scheme url_netloc
      http_get url
    = Returned
        (join [LF; LF]
           (match find (tag_named [lit "title"])
                    (decompose_all removed_tags soup) with
            | Some title => lit "# " ++ strip is_space (get_text title)
            | None => lit "# Scraped Content from " ++ url_netloc url
            end :: body_blocks)).
Proof.
  intros _ Hget. unfold scrape_webpage. rewrite Hget.
  destruct (content_blocks_title (url_netloc url) soup) as [body ->].
  by exists body.
Qed.

(** Where the title element is missing, or has a text, the code and the
    specification name the same title block. *)
Lemma title_block_agrees netloc soup :
  match find (tag_named [lit "title"]) (decompose_all removed_tags soup) with
  | Some title => strip is_space (get_text title) ≠ []
  | None => True
  end →
  head (blocks netloc soup) = Some (spec_title_block is_space netloc soup).
Proof.
  unfold content_blocks, spec_title_block. simpl.
  destruct (find _ _) as [title|]; [|done].
  intros H. by rewrite bool_decide_eq_false_2.
Qed.

End ScrapeProofs.

(** ** The table excerpt satisfies what the proofs ask of the runtime *)

Ltac reflect_tests :=
  repeat match goal with
    | E : _ && _ = true |- _ => apply andb_true_iff in E as [? ?]
    | E : _ && _ = false |- _ => apply andb_false_iff in E as [?|?]
    | E : negb _ = true |- _ => apply negb_true_iff in E
    | E : negb _ = false |- _ => apply negb_false_iff in E
    | E : (_ <=? _) = true |- _ => apply N.leb_le in E
    | E : (_ <=? _) = false |- _ => apply N.leb_gt in E
    | E : (_ =? _) = true |- _ => apply N.eqb_eq in E
    | E : (_ =? _) = false |- _ => apply N.eqb_neq in E
    end.

Lemma ucd_lower_char_stable a c :
  c ∈ ucd_lower_char a → ucd_lower_char c = [c].
Proof.
  intros Hc. unfold ucd_lower_char, in_range in Hc.
  repeat case_match;
    rewrite ?elem_of_cons, ?elem_of_nil in Hc;
    repeat (destruct Hc as [Hc|Hc]; try done); subst c;
    unfold ucd_lower_char, in_range; repeat case_match; try done;
    exfalso; reflect_tests; lia.
Qed.

Lemma ucd_lower_cons c s : ucd_lower (c :: s) = ucd_lower_char c ++ ucd_lower s.
Proof. reflexivity. Qed.

Lemma ucd_lower_stable s c : c ∈ ucd_lower s → ucd_lower [c] = [c].
Proof.
  intros H. rewrite ucd_lower_cons. cbn. rewrite app_nil_r.
  induction s as [|a s IH]; [by apply elem_of_nil in H|].
  rewrite ucd_lower_cons, elem_of_app in H. destruct H as [H|H]; [|by apply IH].
  by apply ucd_lower_char_stable in H.
Qed.

Lemma ucd_lower_fixed s : (∀ c, c ∈ s → ucd_lower [c] = [c]) → ucd_lower s = s.
Proof.
  induction s as [|a s IH]; intros H; [done|].
  rewrite ucd_lower_cons, IH.
  - specialize (H a (list_elem_of_here _ _)).
    rewrite ucd_lower_cons in H. cbn in H. rewrite app_nil_r in H. by rewrite H.
  - intros c Hc. apply H, elem_of_cons. by right.
Qed.


(** In the excerpt only U+0130 grows when it is lowercased. *)
Lemma ucd_lower_length d : 304 ∉ d → length (ucd_lower d) = length d.
Proof.
  induction d as [|a d IH]; intros Hd; [done|].
  rewrite ucd_lower_cons, length_app. simpl.
  assert (a ≠ 304) as Ha by (intros ->; apply Hd, list_elem_of_here).
  assert (length (ucd_lower_char a) = 1%nat) as ->.
  { unfold ucd_lower_char. repeat case_match; try done;
      exfalso; reflect_tests; done. }
  rewrite IH; [done|]. intros ?. apply Hd, elem_of_cons. by right.
Qed.

(** ** The model on the example sentence and on the example pages *)

Example clean_example :
  ucd_clean example_sentence
  = lit "the quick brown foxes are running and jumping over lazy dogs".
Proof. vm_compute. reflexivity. Qed.

(** Punctuation goes before the parser runs, so the tags of a document
    are not taken out: their names stay in the text. *)
Example clean_markup : ucd_clean (lit "<b>Hi</b> there") = lit "bhib there".
Proof. vm_compute. reflexivity. Qed.

Example pipeline_example :
  example_pipeline [example_sentence]
  = {| cleaned_corpus :=
         [lit "the quick brown foxes are running and jumping over lazy dogs"];
       tokenized_corpus :=
         [[lit "the"; lit "quick"; lit "brown"; lit "foxes"; lit "are";
           lit "running"; lit "and"; lit "jumping"; lit "over"; lit "lazy";
           lit "dogs"]];
       filtered_corpus :=
         [[lit "quick"; lit "brown"; lit "foxes"; lit "running";
           lit "jumping"; lit "lazy"; lit "dogs"]];
       stemmed_corpus :=
         [[lit "quick"; lit "brown"; lit "fox"; lit "run"; lit "jump";
           lit "lazi"; lit "dog"]];
       lemmatized_corpus :=
         [[lit "quick"; lit "brown"; lit "fox"; lit "running";
           lit "jumping"; lit "lazy"; lit "dog"]] |}.
Proof. vm_compute. reflexivity. Qed.

(** Lemmatizing the stems would give another result than lemmatizing the
    filtered tokens. *)
Example lemmatized_not_chained :
  lemmatized_corpus (example_pipeline [example_sentence])
  ≠ (λ doc : list (list N), lemmatize_excerpt <$> doc)
      <$> stemmed_corpus (example_pipeline [example_sentence]).
Proof. vm_compute. discriminate. Qed.

(** A URL without a scheme is fetched over https, and its host is read
    as empty. *)
Example scrape_schemeless :
  fetch_target https_scheme (lit "example.com") = lit "https://example.com"
  ∧ example_scrape (lit "example.com") = Returned (lit "# Scraped Content from ").
Proof. split; vm_compute; reflexivity. Qed.

Example scrape_unreachable :
  example_scrape (lit "https://example.net")
  = Raised (lit "Failed to fetch the webpage: connection refused").
Proof. vm_compute. reflexivity. Qed.

(** ** The claims on the example inputs *)

Lemma clean_text_no_digit_punctuation_double_space_witness :
  (∀ c, c ∈ ucd_clean example_sentence → ucd_is_digit c = false)
  ∧ (∀ c, c ∈ ucd_clean example_sentence → c ∉ punctuation)
  ∧ ¬ (∃ s1 s2, ucd_clean example_sentence = s1 ++ [SP; SP] ++ s2).
Proof.
  apply (clean_text_no_digit_punctuation_double_space
           ucd_lower ucd_is_digit ucd_is_word ucd_is_space plain_soup_text).
  - reflexivity.
  - reflexivity.
  - intros t _ _. reflexivity.
Defined.

Lemma clean_text_idempotent_witness :
  ucd_clean (ucd_clean dotted_i_a) = ucd_clean dotted_i_a.
Proof.
  apply (clean_text_idempotent
           ucd_lower ucd_is_digit ucd_is_word ucd_is_space plain_soup_text).
  - exact ucd_lower_stable.
  - exact ucd_lower_fixed.
  - reflexivity.
  - reflexivity.
  - reflexivity.
  - intros t _ _. reflexivity.
Defined.

(** C7 fails on a document with the capital I with dot above: it
    lowercases to two code points, and the second becomes a space between
    the letters. *)
Lemma clean_text_length_counterexample :
  ucd_clean dotted_i_a = [105; 32; 97]
  ∧ ¬ (length (ucd_clean dotted_i_a) ≤ length dotted_i_a)%nat.
Proof. split; [vm_compute; reflexivity | vm_compute; lia]. Qed.

Lemma clean_text_length_witness :
  (length (ucd_lower example_sentence) ≤ length example_sentence)%nat
  ∧ (length (ucd_clean example_sentence) ≤ length example_sentence)%nat.
Proof.
  assert (length (ucd_lower example_sentence) ≤ length example_sentence)%nat
    as H by (vm_compute; lia).
  split; [exact H|].
  apply (clean_text_length
           ucd_lower ucd_is_digit ucd_is_word ucd_is_space plain_soup_text).
  - reflexivity.
  - intros t _ _. reflexivity.
  - exact H.
Defined.

Lemma filtered_tokens_witness :
  lit "the"
  ∈ [lit "quick"; lit "brown"; lit "foxes"; lit "running";
     lit "jumping"; lit "lazy"; lit "dogs"]
  ↔ lit "the"
    ∈ [lit "the"; lit "quick"; lit "brown"; lit "foxes"; lit "are";
       lit "running"; lit "and"; lit "jumping"; lit "over"; lit "lazy";
       lit "dogs"]
    ∧ (lit "the" ∉ (list_to_set stopwords_excerpt : gset (list N)))
    ∧ (2 < length (lit "the"))%nat.
Proof.
  apply (filtered_tokens
           ucd_lower ucd_is_digit ucd_is_word ucd_is_space plain_soup_text
           ws_tokenize stopwords_excerpt stem_excerpt lemmatize_excerpt
           [example_sentence] 0%nat).
  - vm_compute. reflexivity.
  - vm_compute. reflexivity.
Defined.

Lemma stemmed_lemmatized_from_filtered_witness :
  stemmed_corpus (example_pipeline [example_sentence]) !! 0%nat
  = Some (stem_excerpt <$>
            [lit "quick"; lit "brown"; lit "foxes"; lit "running";
             lit "jumping"; lit "lazy"; lit "dogs"]).
Proof.
  apply (stemmed_lemmatized_from_filtered
           ucd_lower ucd_is_digit ucd_is_word ucd_is_space plain_soup_text
           ws_tokenize stopwords_excerpt stem_excerpt lemmatize_excerpt
           [example_sentence] 0%nat).
  vm_compute. reflexivity.
Defined.

Lemma filtered_subsequence_witness :
  [lit "quick"; lit "brown"; lit "foxes"; lit "running";
   lit "jumping"; lit "lazy"; lit "dogs"]
  `sublist_of`
  [lit "the"; lit "quick"; lit "brown"; lit "foxes"; lit "are";
   lit "running"; lit "and"; lit "jumping"; lit "over"; lit "lazy";
   lit "dogs"].
Proof.
  apply (filtered_subsequence
           ucd_lower ucd_is_digit ucd_is_word ucd_is_space plain_soup_text
           ws_tokenize stopwords_excerpt stem_excerpt lemmatize_excerpt
           [example_sentence] 0%nat _ _
           [lit "quick"; lit "brown"; lit "fox"; lit "run"; lit "jump";
            lit "lazi"; lit "dog"]
           [lit "quick"; lit "brown"; lit "fox"; lit "running";
            lit "jumping"; lit "lazy"; lit "dog"]).
  - vm_compute. reflexivity.
  - vm_compute. reflexivity.
  - vm_compute. reflexivity.
  - vm_compute. reflexivity.
Defined.

(** C4 on the page with a navigation bar and a footer only: the title
    line alone is returned, not the sentinel. *)
Theorem scrape_nav_footer_page :
  example_scrape (lit "https://example.com")
  = Returned (lit "# Scraped Content from example.com")
  ∧ example_scrape (lit "https://example.com") ≠ Returned sentinel.
Proof.
  split; [vm_compute; reflexivity|]. apply scrape_webpage_never_sentinel.
Qed.

(** C8 fails on a page with an empty title element: the title block is
    the empty heading, not the fallback with the host. *)
Lemma scrape_webpage_title_counterexample :
  head (content_blocks ucd_lower ucd_is_space ascii_class_search
          (lit "example.org") empty_title_page)
  = Some (lit "# ")
  ∧ spec_title_block ucd_is_space (lit "example.org") empty_title_page
    = lit "# Scraped Content from example.org"
  ∧ head (content_blocks ucd_lower ucd_is_space ascii_class_search
            (lit "example.org") empty_title_page)
    ≠ Some (spec_title_block ucd_is_space (lit "example.org") empty_title_page).
Proof.
  split; [vm_compute; reflexivity|]. split; [vm_compute; reflexivity|].
  vm_compute. discriminate.
Qed.

Lemma scrape_webpage_title_witness :
  ∃ body_blocks,
    example_scrape (lit "https://example.org")
    = Returned (join [LF; LF] (lit "# " :: body_blocks)).
Proof.
  destruct (scrape_webpage_title
              ucd_lower ucd_is_space ascii_class_search
              https_scheme https_netloc example_site
              (lit "https://example.org") empty_title_page)
    as [body H]; [vm_compute; discriminate | vm_compute; reflexivity |].
  exists body. exact H.
Defined.

(** ** Splitting, joining and the metrics *)

Lemma split_go_word ws cur t rest :
  (∀ c, c ∈ t → ws c = false) →
  split_go ws cur (t ++ rest) = split_go ws (reverse t ++ cur) rest.
Proof.
  revert cur. induction t as [|a t IH]; intros cur Ht; [done|].
  cbn [app split_go]. rewrite (Ht a) by apply list_elem_of_here.
  rewrite IH by (intros c Hc; apply Ht, elem_of_cons; by right).
  by rewrite reverse_cons, <- app_assoc.
Qed.

Lemma reverse_not_nil (t : list N) : t ≠ [] → reverse t ≠ [].
Proof.
  intros Ht Hr. apply Ht. apply (f_equal reverse) in Hr.
  by rewrite reverse_involutive in Hr.
Qed.

(** Tokens without whitespace, joined by a whitespace character, are
    what splitting the joined text gives back. *)
Lemma split_join ws sep (tokens : list (list N)) :
  ws sep = true →
  Forall (λ t, t ≠ [] ∧ ∀ c, c ∈ t → ws c = false) tokens →
  split ws (join [sep] tokens) = tokens.
Proof.
  intros Hsep Htok. unfold split.
  induction Htok as [|t rest [Hne Ht] Hrest IH]; [done|].
  pose proof (reverse_not_nil t Hne) as Hrev.
  destruct rest as [|t' rest].
  - cbn [join]. rewrite <- (app_nil_r t) at 1.
    rewrite split_go_word, app_nil_r by done. cbn [split_go].
    destruct (reverse t) eqn:E; [done|]. by rewrite <- E, reverse_involutive.
  - change (join [sep] (t :: t' :: rest))
      with (t ++ sep :: join [sep] (t' :: rest)).
    rewrite split_go_word, app_nil_r by done. cbn [split_go]. rewrite Hsep.
    destruct (reverse t) eqn:E; [done|].
    by rewrite <- E, reverse_involutive, IH.
Qed.

Lemma split_go_length ws cur s :
  (length (split_go ws cur s)
   ≤ length s + match cur with [] => 0 | _ => 1 end)%nat.
Proof.
  revert cur. induction s as [|c s IH]; intros cur; cbn [split_go].
  - destruct cur; simpl; lia.
  - destruct (ws c).
    + specialize (IH []). destruct cur; simpl in *; lia.
    + specialize (IH (c :: cur)). destruct cur; simpl in *; lia.
Qed.

Lemma splitlines_go_length n cur s :
  (length s ≤ n)%nat →
  (length (splitlines_go cur s)
   ≤ length s + match cur with [] => 0 | _ => 1 end)%nat.
Proof.
  revert cur s. induction n as [|n IH]; intros cur s Hn.
  - destruct s; [|simpl in Hn; lia]. destruct cur; simpl; lia.
  - destruct s as [|c s]; [destruct cur; simpl; lia|].
    simpl in Hn. cbn [splitlines_go]. destruct (is_linebreak c).
    + destruct s as [|c' s'].
      * destruct cur; simpl; lia.
      * destruct ((c =? 13) && (c' =? 10)).
        -- pose proof (IH [] s') as H. simpl in *.
           specialize (H ltac:(lia)). destruct cur; simpl; lia.
        -- pose proof (IH [] (c' :: s')) as H. simpl in *.
           specialize (H ltac:(lia)). destruct cur; simpl; lia.
    + pose proof (IH (c :: cur) s ltac:(lia)) as H.
      destruct cur; simpl in *; lia.
Qed.

(** X: the word count and the line count of the metrics never exceed the
    character count. *)
Theorem metrics_bounded lower is_space text :
  (words (metrics_of lower is_space text)
   ≤ characters (metrics_of lower is_space text))%nat
  ∧ (lines (metrics_of lower is_space text)
     ≤ characters (metrics_of lower is_space text))%nat.
Proof.
  simpl. split.
  - pose proof (split_go_length is_space [] text) as H. unfold split. simpl in H. lia.
  - pose proof (splitlines_go_length (length text) [] text) as H.
    unfold splitlines. simpl in H. lia.
Qed.

(** X: the sample of a tab is the first fifty tokens of the document:
    the test on the length changes nothing. *)
Theorem sample_take doc :
  sample doc = take 50 doc
  ∧ (length (sample doc) ≤ 50)%nat
  ∧ sample doc `prefix_of` doc.
Proof.
  assert (sample doc = take 50 doc) as ->.
  { unfold sample. destruct (50 <? length doc)%nat eqn:E; [done|].
    apply Nat.ltb_ge in E. by rewrite take_ge. }
  split; [done|]. split.
  - rewrite length_take. lia.
  - apply prefix_take.
Qed.

(** ** More on the cleaning stage *)

Lemma head_outside_app cls (s1 s2 : list N) :
  s1 ≠ [] → head_outside cls s1 → head_outside cls (s1 ++ s2).
Proof. by destruct s1. Qed.

Lemma rstrip_last ws s : head_outside ws (reverse (rstrip ws s)).
Proof.
  induction s as [|c s IH]; cbn [rstrip]; [done|].
  destruct (rstrip ws s) as [|x r] eqn:E.
  - destruct (ws c) eqn:Hc; [done|]. exact Hc.
  - rewrite reverse_cons. apply head_outside_app; [|done].
    by apply reverse_not_nil.
Qed.

Lemma sub_runs_all cls repl prev s :
  (∀ c, c ∈ s → cls c = true) →
  sub_runs cls repl prev s
  = if prev then [] else match s with [] => [] | _ => repl end.
Proof.
  revert prev. induction s as [|a s IH]; intros prev H; cbn [sub_runs].
  - by destruct prev.
  - rewrite (H a) by apply list_elem_of_here.
    rewrite IH by (intros c Hc; apply H, elem_of_cons; by right).
    destruct prev; [done|]. by rewrite app_nil_r.
Qed.

Section CleanMore.

Variable lower : str → str.
Variable is_digit is_word is_space : char → bool.
Variable soup_text : str → str.

Hypothesis lower_stable : ∀ s c, c ∈ lower s → lower [c] = [c].
Hypothesis lower_fixed : ∀ s, (∀ c, c ∈ s → lower [c] = [c]) → lower s = s.
Hypothesis lower_space : lower [SP] = [SP].
Hypothesis space_space : is_space SP = true.
Hypothesis soup_text_words :
  ∀ t, (∀ c, c ∈ t → c = SP ∨ is_word c = true) →
       no_adjacent (λ c, c =? SP) t = true →
       soup_text t = t.

(** X: a cleaned text is made of word characters that are not
    whitespace and of spaces; it neither starts nor ends with whitespace
    and no two whitespace characters are neighbours. *)
Theorem clean_text_shape d :
  let cleaned := clean_text lower is_digit is_word is_space soup_text d in
  (∀ c, c ∈ cleaned → c = SP ∨ (is_word c = true ∧ is_space c = false))
  ∧ head_outside is_space cleaned
  ∧ head_outside is_space (reverse cleaned)
  ∧ no_adjacent is_space cleaned = true.
Proof.
  intros cleaned. subst cleaned. split; [|split; [|split]].
  - intros c Hc. apply clean_text_elem in Hc; [|done..].
    destruct Hc as [->|(_ & _ & _ & ? & ?)]; [by left|by right].
  - rewrite clean_text_spaced by done. apply rstrip_head, lstrip_head.
  - rewrite clean_text_spaced by done. apply rstrip_last.
  - by apply clean_text_no_adjacent.
Qed.

(** X: a cleaned text is in lowercase: lowercasing it again changes
    nothing. *)
Theorem clean_text_lowercase d :
  lower (clean_text lower is_digit is_word is_space soup_text d)
  = clean_text lower is_digit is_word is_space soup_text d.
Proof.
  apply lower_fixed. intros c Hc. apply clean_text_elem in Hc; [|done..].
  destruct Hc as [->|(H & _)]; [done|]. by apply lower_stable in H.
Qed.

(** X: the call of the HTML parser never changes the text: punctuation
    is deleted before it runs, so the result is the one of the function
    without that call. Tags are not taken out; their names stay. *)
Theorem clean_text_parser_unused d :
  clean_text lower is_digit is_word is_space soup_text d
  = clean_text lower is_digit is_word is_space (λ t, t) d.
Proof. by rewrite clean_text_spaced. Qed.

(** X: a document whose lowercase has only digits, punctuation and
    characters outside the word class is cleaned to the empty text. *)
Theorem clean_text_no_words d :
  (∀ c, c ∈ lower d →
     is_digit c = true ∨ c ∈ punctuation ∨ is_word c = false) →
  clean_text lower is_digit is_word is_space soup_text d = [].
Proof.
  intros Hd. rewrite clean_text_spaced by done.
  set (t := translate_delete punctuation (re_sub_plus is_digit [] (lower d))).
  assert (Ht : ∀ c, c ∈ t → negb (is_word c) = true).
  { intros c Hc. unfold t, translate_delete, re_sub_plus in Hc.
    apply list_elem_of_filter in Hc as [Hp Hc].
    apply sub_runs_elem in Hc as [Hc|[Hc Hdig]]; [by apply elem_of_nil in Hc|].
    destruct (Hd c Hc) as [?|[?|Hw]]; [congruence|done|by rewrite Hw]. }
  unfold re_sub_plus at 2.
  rewrite (sub_runs_all (λ c, negb (is_word c)) [SP] false t Ht).
  destruct t; [done|].
  unfold re_sub_plus. cbn [sub_runs]. rewrite space_space. cbn [app].
  unfold strip. cbn [lstrip]. by rewrite space_space.
Qed.

End CleanMore.

(** ** More on the pipeline *)

(** X: the documents are processed one by one: the result for two
    corpora put end to end is the two results put end to end, stage by
    stage. *)
Theorem preprocess_text_app lower is_digit is_word is_space soup_text
    word_tokenize stopwords_english stem lemmatize (corpus1 corpus2 : list (list N)) :
  let run :=
    preprocess_text lower is_digit is_word is_space soup_text
      word_tokenize stopwords_english stem lemmatize in
  cleaned_corpus (run (corpus1 ++ corpus2))
  = cleaned_corpus (run corpus1) ++ cleaned_corpus (run corpus2)
  ∧ tokenized_corpus (run (corpus1 ++ corpus2))
    = tokenized_corpus (run corpus1) ++ tokenized_corpus (run corpus2)
  ∧ filtered_corpus (run (corpus1 ++ corpus2))
    = filtered_corpus (run corpus1) ++ filtered_corpus (run corpus2)
  ∧ stemmed_corpus (run (corpus1 ++ corpus2))
    = stemmed_corpus (run corpus1) ++ stemmed_corpus (run corpus2)
  ∧ lemmatized_corpus (run (corpus1 ++ corpus2))
    = lemmatized_corpus (run corpus1) ++ lemmatized_corpus (run corpus2).
Proof. simpl. by rewrite !fmap_app. Qed.

(** X: a document without a word character (digits, punctuation and
    whitespace only) gets the empty text and four empty token lists. *)
Theorem preprocess_text_no_words lower is_digit is_word is_space soup_text
    word_tokenize stopwords_english stem lemmatize
    (corpus : list (list N)) i (doc : list N) :
  is_space SP = true →
  (∀ t, (∀ c, c ∈ t → c = SP ∨ is_word c = true) →
        no_adjacent (λ c, c =? SP) t = true → soup_text t = t) →
  word_tokenize [] = [] →
  corpus !! i = Some doc →
  (∀ c, c ∈ lower doc →
     is_digit c = true ∨ c ∈ punctuation ∨ is_word c = false) →
  let result :=
    preprocess_text lower is_digit is_word is_space soup_text
      word_tokenize stopwords_english stem lemmatize corpus in
  cleaned_corpus result !! i = Some []
  ∧ tokenized_corpus result !! i = Some []
  ∧ filtered_corpus result !! i = Some []
  ∧ stemmed_corpus result !! i = Some []
  ∧ lemmatized_corpus result !! i = Some [].
Proof.
  intros Hsp Hsoup Htok Hdoc Hnw result. subst result.
  rewrite stemmed_lookup, lemmatized_lookup, filtered_lookup,
    tokenized_lookup, cleaned_lookup, Hdoc. simpl.
  rewrite (clean_text_no_words lower is_digit is_word is_space soup_text
             Hsp Hsoup doc Hnw), Htok. done.
Qed.

(** ** More on the extractor *)

Lemma node_children_ind (P : node → Prop) :
  (∀ s, P (NavigableString s)) →
  (∀ s, P (Comment s)) →
  (∀ name cls cs, Forall P cs → P (Tag name cls cs)) →
  ∀ n, P n.
Proof.
  intros Hs Hc Ht. fix IH 1. intros [s|s|name cls cs].
  - apply Hs.
  - apply Hc.
  - apply Ht. induction cs as [|c cs IHcs]; constructor; [apply IH|apply IHcs].
Qed.

Lemma decompose_removes names n :
  Forall (λ m, tag_named names m = false)
    (descendants (decompose names n)).
Proof.
  unfold descendants.
  induction n as [s|s|name cls cs IH] using node_children_ind.
  - by repeat constructor.
  - by repeat constructor.
  - cbn [decompose]. destruct (bool_decide (name ∈ names)) eqn:E; [constructor|].
    cbn [List.map concat self_and_descendants]. rewrite app_nil_r.
    constructor; [exact E|].
    induction IH as [|c cs Hc _ IHcs]; [constructor|].
    cbn [List.map concat]. rewrite List.map_app, List.concat_app.
    apply Forall_app. split; [exact Hc|exact IHcs].
Qed.

(** X: once the script, style, nav, footer and header elements are
    taken out, no element with one of these names is left anywhere in
    the tree, so none of them is found or read later. *)
Theorem decompose_all_removes names soup n :
  n ∈ descendants (decompose_all names soup) →
  tag_named names n = false.
Proof.
  unfold decompose_all, descendants.
  induction soup as [|c soup IH]; cbn [List.map concat].
  - intros H. by apply elem_of_nil in H.
  - rewrite List.map_app, List.concat_app, elem_of_app. intros [H|H]; [|by apply IH].
    pose proof (decompose_removes names c) as Hc.
    rewrite Forall_forall in Hc. by apply Hc.
Qed.

Lemma heading_marker_level name :
  name ∈ [lit "h1"; lit "h2"; lit "h3"; lit "h4"] →
  ∃ k, (1 ≤ k ≤ 4)%nat ∧ heading_marker name = replicate k HASH.
Proof.
  rewrite !elem_of_cons, elem_of_nil.
  intros [->|[->|[->|[->|[]]]]];
    [exists 1%nat|exists 2%nat|exists 3%nat|exists 4%nat];
    (split; [lia|vm_compute; reflexivity]).
Qed.

Lemma existsb_false_elem {A} (f : A → bool) (l : list A) x :
  existsb f l = false → x ∈ l → f x = false.
Proof.
  intros Hex Hx. destruct (f x) eqn:E; [|done].
  assert (existsb f l = true) as H; [|congruence].
  apply existsb_exists. exists x. split; [by apply list_elem_of_In|done].
Qed.

(** X: a tag gives at most one block. The block is the stripped text of
    the tag, of ten characters or more and without a boilerplate word in
    its lowercase; behind one to four hash signs and a space for a
    heading that does not start with menu, navigation or footer, and as
    it is for a paragraph or a division of more than five words. *)
Theorem blocks_of_emits lower is_space tag b :
  b ∈ blocks_of lower is_space tag →
  ∃ name cls cs,
    tag = Tag name cls cs
    ∧ blocks_of lower is_space tag = [b]
    ∧ (10 ≤ length (strip is_space (get_text tag)))%nat
    ∧ (∀ w, w ∈ boilerplate_words →
         contains (lower (strip is_space (get_text tag))) w = false)
    ∧ ((name ∈ [lit "h1"; lit "h2"; lit "h3"; lit "h4"]
        ∧ (∃ k, (1 ≤ k ≤ 4)%nat
                ∧ b = replicate k HASH ++ [SP] ++ strip is_space (get_text tag))
        ∧ ∀ p, p ∈ [lit "menu"; lit "navigation"; lit "footer"] →
               startswith (lower (strip is_space (get_text tag))) p = false)
       ∨ (name ∈ [lit "p"; lit "div"]
          ∧ b = strip is_space (get_text tag)
          ∧ (5 < length (split is_space (strip is_space (get_text tag))))%nat)).
Proof.
  destruct tag as [s|s|name cls cs]; cbn [blocks_of];
    [intros H; by apply elem_of_nil in H..|].
  set (text := strip is_space (get_text (Tag name cls cs))).
  destruct (length text <? 10)%nat eqn:Hlen;
    [intros H; by apply elem_of_nil in H|].
  apply Nat.ltb_ge in Hlen.
  destruct (existsb _ _) eqn:Hkw; [intros H; by apply elem_of_nil in H|].
  destruct (bool_decide (name ∈ [lit "h1"; lit "h2"; lit "h3"; lit "h4"])) eqn:Hh.
  - apply bool_decide_eq_true in Hh.
    destruct (negb (bool_decide (text = []))) eqn:Hne;
      [|intros H; by apply elem_of_nil in H].
    destruct (existsb _ [lit "menu"; lit "navigation"; lit "footer"]) eqn:Hst;
      [intros H; by apply elem_of_nil in H|].
    cbn [negb andb]. intros ->%list_elem_of_singleton.
    exists name, cls, cs. repeat split; [done| |].
    + intros w Hw.
      apply (existsb_false_elem (λ word, contains (lower text) word) _ w Hkw Hw).
    + left. split; [done|]. split.
      * destruct (heading_marker_level name Hh) as (k & Hk & ->). by exists k.
      * intros p Hp.
        apply (existsb_false_elem (λ p, startswith (lower text) p) _ p Hst Hp).
  - destruct (bool_decide (name ∈ [lit "p"; lit "div"])) eqn:Hp;
      [|intros H; by apply elem_of_nil in H].
    apply bool_decide_eq_true in Hp.
    destruct (negb (bool_decide (text = []))) eqn:Hne;
      [|intros H; by apply elem_of_nil in H].
    destruct (5 <? length (split is_space text))%nat eqn:Hw;
      [|intros H; by apply elem_of_nil in H].
    apply Nat.ltb_lt in Hw.
    cbn [andb]. intros ->%list_elem_of_singleton.
    exists name, cls, cs. repeat split; [done| |].
    + intros w Hw'.
      apply (existsb_false_elem (λ word, contains (lower text) word) _ w Hkw Hw').
    + right. done.
Qed.

Lemma div_kind :
  bool_decide (lit "div" ∈ [lit "h1"; lit "h2"; lit "h3"; lit "h4"]) = false
  ∧ bool_decide (lit "div" ∈ [lit "p"; lit "div"]) = true
  ∧ bool_decide (lit "p" ∈ [lit "h1"; lit "h2"; lit "h3"; lit "h4"]) = false
  ∧ bool_decide (lit "p" ∈ [lit "p"; lit "div"]) = true
  ∧ tag_named block_tags (Tag (lit "div") None []) = true
  ∧ tag_named block_tags (Tag (lit "p") None []) = true.
Proof. repeat split; vm_compute; reflexivity. Qed.

(** The body blocks of [content_blocks] are those of the loop over the
    children of the content root. *)
Lemma content_blocks_body lower is_space class_re_search netloc soup :
  tail (content_blocks lower is_space class_re_search netloc soup)
  = match
      or_else (find (tag_named [lit "main"]) (decompose_all removed_tags soup))
        (or_else (find (tag_named [lit "article"]) (decompose_all removed_tags soup))
           (or_else (find (div_with_content_class class_re_search)
                       (decompose_all removed_tags soup))
              (find (tag_named [lit "body"]) (decompose_all removed_tags soup))))
    with
    | Some (Tag _ _ cs) => extract_blocks lower is_space cs
    | _ => []
    end.
Proof. reflexivity. Qed.

(** X: a paragraph that is the only child of a division is emitted
    twice: the loop visits the division and the paragraph, and both have
    the same text. *)
Theorem wrapped_paragraph_twice lower is_space cls cls' cs :
  find_all (tag_named block_tags) cs = [] →
  extract_blocks lower is_space [Tag (lit "div") cls [Tag (lit "p") cls' cs]]
  = blocks_of lower is_space (Tag (lit "p") cls' cs)
    ++ blocks_of lower is_space (Tag (lit "p") cls' cs).
Proof.
  intros Hcs. destruct div_kind as (Hd1 & Hd2 & Hp1 & Hp2 & Hd3 & Hp3).
  unfold extract_blocks, find_all, descendants in *.
  cbn [List.map concat self_and_descendants]. rewrite !app_nil_r.
  rewrite filter_cons_True by (change (Is_true (tag_named block_tags (Tag (lit "div") None []))); by rewrite Hd3).
  rewrite filter_cons_True by (change (Is_true (tag_named block_tags (Tag (lit "p") None []))); by rewrite Hp3).
  rewrite Hcs. cbn [List.map concat]. rewrite app_nil_r. f_equal.
  cbn [blocks_of get_text List.map concat]. rewrite !app_nil_r.
  by rewrite Hd1, Hd2, Hp1, Hp2.
Qed.

(** ** The page script *)

Section ScriptProofs.

Variable lower : str → str.
Variable is_digit is_word is_space : char → bool.
Variable soup_text : str → str.
Variable word_tokenize : str → list str.
Variable stopwords_english : list str.
Variable stem : str → str.
Variable lemmatize : str → str.
Variable class_re_search : str → bool.
Variable url_scheme : str → str.
Variable url_netloc : str → str.
Variable http_get : str → response.
Variable decode_utf8 : list N → option (list N).

Local Abbreviation clean := (clean_text lower is_digit is_word is_space soup_text).
Local Abbreviation pipeline :=
  (preprocess_text lower is_digit is_word is_space soup_text
     word_tokenize stopwords_english stem lemmatize).
Local Abbreviation keep :=
  (λ word : list N,
     (word ∉ (list_to_set stopwords_english : gset (list N)))
     ∧ (2 < length word)%nat).
Local Abbreviation input_of :=
  (read_input lower is_space class_re_search url_scheme url_netloc http_get
     decode_utf8).
Local Abbreviation script :=
  (run_script lower is_digit is_word is_space soup_text word_tokenize
     stopwords_english stem lemmatize class_re_search url_scheme url_netloc
     http_get decode_utf8).

(** The tabs for a corpus that starts with [first]. *)
Lemma show_results_first first rest :
  show_results (pipeline (first :: rest))
  = inr {| cleaned_output := clean first;
           tokenized_sample := sample (word_tokenize (clean first));
           total_tokens := length (word_tokenize (clean first));
           filtered_sample := sample (filter keep (word_tokenize (clean first)));
           remaining_tokens := length (filter keep (word_tokenize (clean first)));
           stemmed_sample :=
             sample (stem <$> filter keep (word_tokenize (clean first)));
           stemmed_tokens :=
             length (stem <$> filter keep (word_tokenize (clean first)));
           lemmatized_sample :=
             sample (lemmatize <$> filter keep (word_tokenize (clean first)));
           lemmatized_tokens :=
             length (lemmatize <$> filter keep (word_tokenize (clean first)));
           processed_text :=
             join [SP] (lemmatize <$> filter keep (word_tokenize (clean first)));
           tokens_text :=
             join [LF] (lemmatize <$> filter keep (word_tokenize (clean first)))
        |}.
Proof. reflexivity. Qed.

Lemma read_input_corpus w corpus warn :
  input_of w = inr (corpus, warn) → (length corpus ≤ 1)%nat.
Proof.
  unfold read_input. intros H.
  repeat case_match; simplify_eq; simpl; lia.
Qed.

Lemma read_input_error w e :
  input_of w = inl e →
  e = UnicodeDecodeError
  ∧ input_type w = UploadFile
  ∧ ∃ bytes, uploaded_file w = Some bytes ∧ decode_utf8 bytes = None.
Proof.
  unfold read_input. intros H.
  repeat case_match; simplify_eq. eauto.
Qed.

(** What a run shows, from the corpus it built. *)
Lemma run_script_inr w p :
  script w = inr p →
  ∃ warn,
    input_of w = inr (corpus_built p, warn)
    ∧ warning p = warn
    ∧ match corpus_built p with
      | [] => text_stats p = None ∧ results p = None
      | first :: rest =>
          text_stats p = Some (metrics_of lower is_space first)
          ∧ if process_btn w
            then ∃ view, show_results (pipeline (first :: rest)) = inr view
                         ∧ results p = Some view
            else results p = None
      end.
Proof.
  unfold run_script. destruct (input_of w) as [e|[corpus warn]]; [done|].
  cbn [and_then fst snd]. destruct corpus as [|first rest].
  - intros [= <-]. by exists warn.
  - destruct (process_btn w) eqn:Hbtn.
    + rewrite show_results_first. cbn [and_then].
      intros [= <-]. exists warn.
      cbn [corpus_built warning text_stats results].
      split; [done|]. split; [done|]. split; [done|].
      eexists. split; [apply show_results_first|done].
    + intros [= <-]. by exists warn.
Qed.

(** X: the script never dies of an index out of range; the one way a
    run dies is an uploaded file that is not UTF-8. *)
Theorem run_script_error w e :
  run_script lower is_digit is_word is_space soup_text word_tokenize
    stopwords_english stem lemmatize class_re_search url_scheme url_netloc
    http_get decode_utf8 w = inl e →
  e = UnicodeDecodeError
  ∧ input_type w = UploadFile
  ∧ ∃ bytes, uploaded_file w = Some bytes ∧ decode_utf8 bytes = None.
Proof.
  unfold run_script. destruct (input_of w) as [e'|[corpus warn]] eqn:Hin.
  - cbn [and_then]. intros [= <-]. by apply read_input_error.
  - cbn [and_then fst snd]. destruct corpus as [|first rest]; [done|].
    destruct (process_btn w); [|done]. by rewrite show_results_first.
Qed.

(** X: a run builds a corpus of at most one document; it shows the
    metrics exactly when the corpus is not empty, and the results exactly
    when, besides, the processing button is pressed. *)
Theorem run_script_shows w p :
  run_script lower is_digit is_word is_space soup_text word_tokenize
    stopwords_english stem lemmatize class_re_search url_scheme url_netloc
    http_get decode_utf8 w = inr p →
  (length (corpus_built p) ≤ 1)%nat
  ∧ (is_Some (text_stats p) ↔ corpus_built p ≠ [])
  ∧ (is_Some (results p) ↔ corpus_built p ≠ [] ∧ process_btn w = true).
Proof.
  intros (warn & Hin & _ & Hshow)%run_script_inr.
  split; [by eapply read_input_corpus|].
  destruct (corpus_built p) as [|first rest].
  - destruct Hshow as [-> ->]. split.
    + split; [by intros [? ?]|done].
    + split; [by intros [? ?]|by intros [? _]].
  - destruct Hshow as [-> Hres]. split; [by split|].
    destruct (process_btn w).
    + destruct Hres as (view & _ & ->). by split.
    + rewrite Hres. split; [by intros [? ?]|by intros [_ ?]].
Qed.

(** X: the four counts under the tabs: the filtered count is at most
    the tokenized count, and the stemmed and the lemmatized count are the
    filtered count; no sample has more than fifty tokens. *)
Theorem run_script_counts w p view :
  run_script lower is_digit is_word is_space soup_text word_tokenize
    stopwords_english stem lemmatize class_re_search url_scheme url_netloc
    http_get decode_utf8 w = inr p →
  results p = Some view →
  (remaining_tokens view ≤ total_tokens view)%nat
  ∧ stemmed_tokens view = remaining_tokens view
  ∧ lemmatized_tokens view = remaining_tokens view
  ∧ (length (tokenized_sample view) ≤ 50)%nat
  ∧ (length (filtered_sample view) ≤ 50)%nat
  ∧ (length (stemmed_sample view) ≤ 50)%nat
  ∧ (length (lemmatized_sample view) ≤ 50)%nat.
Proof.
  intros (warn & _ & _ & Hshow)%run_script_inr Hview.
  destruct (corpus_built p) as [|first rest].
  { destruct Hshow as [_ H]. congruence. }
  destruct Hshow as [_ Hres]. destruct (process_btn w); [|congruence].
  destruct Hres as (view' & Hsh & Hres). rewrite Hres in Hview.
  injection Hview as <-. rewrite show_results_first in Hsh.
  injection Hsh as <-. cbn.
  rewrite !length_fmap. repeat split; try done.
  - apply length_filter.
  - apply sample_take.
  - apply sample_take.
  - apply sample_take.
  - apply sample_take.
Qed.

(** X: the two downloads give the lemmatized tokens back: when no token
    is empty or holds whitespace, splitting either text at whitespace
    yields the tokens. *)
Theorem downloads_split_back (r : PipelineResult) view (tokens : list (list N)) :
  is_space SP = true →
  is_space LF = true →
  show_results r = inr view →
  lemmatized_corpus r !! 0%nat = Some tokens →
  Forall (λ t, t ≠ [] ∧ ∀ c, c ∈ t → is_space c = false) tokens →
  split is_space (processed_text view) = tokens
  ∧ split is_space (tokens_text view) = tokens.
Proof.
  intros Hsp Hlf Hshow Hlem Htok. unfold show_results in Hshow.
  destruct (cleaned_corpus r); [done|]. destruct (tokenized_corpus r); [done|].
  destruct (filtered_corpus r); [done|]. destruct (stemmed_corpus r); [done|].
  destruct (lemmatized_corpus r) as [|lemmatized0 ?]; [done|].
  cbn in Hshow, Hlem. injection Hshow as <-. injection Hlem as ->. cbn.
  split; by apply split_join.
Qed.

(** X: when the request fails, the run shows the message of the
    exception as a warning and builds no corpus: no metrics and no
    results, whatever the processing button says. *)
Theorem run_script_fetch_failure w e :
  input_type w = ScrapeWebpage →
  web_url w ≠ [] →
  scrape_btn w = true →
  http_get (fetch_target url_scheme (web_url w)) = RequestException e →
  run_script lower is_digit is_word is_space soup_text word_tokenize
    stopwords_english stem lemmatize class_re_search url_scheme url_netloc
    http_get decode_utf8 w
  = inr {| corpus_built := [];
           warning := Some (lit "Failed to fetch the webpage: " ++ e);
           text_stats := None; results := None |}.
Proof.
  intros Hin Hurl Hbtn Hget. unfold run_script, read_input, scrape_webpage.
  rewrite Hin, Hbtn, Hget, bool_decide_eq_false_2 by done. reflexivity.
Qed.

(** X: in the scrape mode, a run in which the scrape button does not
    report a press builds no corpus and shows nothing, also when the
    processing button reports a press: the scraped text of an earlier
    run is not kept. *)
Theorem run_script_scrape_not_pressed w :
  input_type w = ScrapeWebpage →
  scrape_btn w = false →
  run_script lower is_digit is_word is_space soup_text word_tokenize
    stopwords_english stem lemmatize class_re_search url_scheme url_netloc
    http_get decode_utf8 w
  = inr {| corpus_built := []; warning := None;
           text_stats := None; results := None |}.
Proof.
  intros Hin Hbtn. unfold run_script, read_input.
  rewrite Hin, Hbtn, andb_false_r. reflexivity.
Qed.

(** X: in the scrape mode, with a URL and the scrape button pressed, a
    run ends in one of three ways. A page that is fetched and parsed
    gives a corpus of one document that starts with the hash sign of the
    title line, no warning, and the metrics of that document. A request
    that fails, and any other exception, give the warning of their
    handler and no corpus, no metrics and no results. *)
Theorem run_script_scraped w :
  input_type w = ScrapeWebpage →
  web_url w ≠ [] →
  scrape_btn w = true →
  match http_get (fetch_target url_scheme (web_url w)) with
  | Page soup =>
      ∃ p text,
        run_script lower is_digit is_word is_space soup_text word_tokenize
          stopwords_english stem lemmatize class_re_search url_scheme
          url_netloc http_get decode_utf8 w = inr p
        ∧ corpus_built p = [text]
        ∧ head text = Some HASH
        ∧ warning p = None
        ∧ text_stats p = Some (metrics_of lower is_space text)
  | RequestException e =>
      run_script lower is_digit is_word is_space soup_text word_tokenize
        stopwords_english stem lemmatize class_re_search url_scheme
        url_netloc http_get decode_utf8 w
      = inr {| corpus_built := [];
               warning := Some (lit "Failed to fetch the webpage: " ++ e);
               text_stats := None; results := None |}
  | OtherException e =>
      run_script lower is_digit is_word is_space soup_text word_tokenize
        stopwords_english stem lemmatize class_re_search url_scheme
        url_netloc http_get decode_utf8 w
      = inr {| corpus_built := [];
               warning := Some (lit "Error processing the webpage: " ++ e);
               text_stats := None; results := None |}
  end.
Proof.
  intros Hin Hurl Hbtn.
  destruct (http_get (fetch_target url_scheme (web_url w)))
    as [soup|e|e] eqn:Hget.
  - pose proof (render_content_blocks_head lower is_space class_re_search
                  (url_netloc (web_url w)) soup) as Hhead.
    unfold run_script, read_input, scrape_webpage.
    rewrite Hin, Hbtn, Hget, bool_decide_eq_false_2 by done.
    cbn [negb andb and_then fst snd].
    destruct (process_btn w).
    + rewrite show_results_first. cbn [and_then]. eauto 10.
    + eauto 10.
  - unfold run_script, read_input, scrape_webpage.
    rewrite Hin, Hbtn, Hget, bool_decide_eq_false_2 by done. reflexivity.
  - unfold run_script, read_input, scrape_webpage.
    rewrite Hin, Hbtn, Hget, bool_decide_eq_false_2 by done. reflexivity.
Qed.


End ScriptProofs.

(** ** The resources *)

Section ResourcesProofs.

Variable env : Type.
Variable data_find : env → str → bool.
Variable download : env → str → env.

Local Abbreviation step := (download_step env data_find download).

Lemma download_loop_found (ds : list (list N * list N)) st :
  (∀ d, d ∈ ds → data_find st.1 d.2 = true) →
  foldl step st ds = st.
Proof.
  revert st. induction ds as [|d ds IH]; intros st H; [done|].
  cbn [foldl]. unfold download_step at 2.
  rewrite (H d) by apply list_elem_of_here.
  apply IH. intros d' Hd'. apply H, elem_of_cons. by right.
Qed.

(** X: when every resource of the table is found, nothing is handed to
    the downloader and the data directories are left as they are. *)
Theorem download_nltk_data_found e :
  (∀ d, d ∈ downloads → data_find e d.2 = true) →
  download_nltk_data env data_find download e = (e, []).
Proof. intros H. unfold download_nltk_data. by apply download_loop_found. Qed.

Lemma download_loop_offline (ds : list (list N * list N)) e st :
  (∀ e' name path, data_find (download e' name) path = data_find e' path) →
  (∀ path, data_find st.1 path = data_find e path) →
  (foldl step st ds).2
  = st.2 ++ (filter (λ d, data_find e d.2 = false) ds).*1
  ∧ ∀ path, data_find (foldl step st ds).1 path = data_find e path.
Proof.
  intros Hoff. revert st. induction ds as [|d ds IH]; intros st Hst.
  - cbn. by rewrite app_nil_r.
  - cbn [foldl]. unfold download_step at 2 4.
    destruct (data_find st.1 d.2) eqn:E.
    + rewrite Hst in E. rewrite filter_cons_False by congruence. by apply IH.
    + rewrite Hst in E. rewrite filter_cons_True by done.
      destruct (IH (download st.1 d.1, st.2 ++ [d.1])) as [IH1 IH2].
      { intros path. cbn. by rewrite Hoff. }
      split; [|done]. rewrite IH1. cbn. by rewrite <- app_assoc.
Qed.

(** X: a download that fails does not stop the loop: when downloads
    change nothing that is found, every resource of the table that is
    missing is handed to the downloader once, in the order of the table. *)
Theorem download_nltk_data_offline e :
  (∀ e' name path, data_find (download e' name) path = data_find e' path) →
  (download_nltk_data env data_find download e).2
  = (filter (λ d, data_find e d.2 = false) downloads).*1.
Proof.
  intros Hoff. unfold download_nltk_data.
  by destruct (download_loop_offline downloads e (e, []) Hoff).
Qed.

Lemma download_loop_keeps (ds : list (list N * list N)) st path :
  (∀ e' name p, data_find e' p = true → data_find (download e' name) p = true) →
  data_find st.1 path = true →
  data_find (foldl step st ds).1 path = true.
Proof.
  intros Hmono. revert st. induction ds as [|d ds IH]; intros st Hst; [done|].
  cbn [foldl]. apply IH. unfold download_step.
  destruct (data_find st.1 d.2); [done|]. cbn. by apply Hmono.
Qed.

Lemma download_loop_works (ds : list (list N * list N)) st :
  (∀ e' name p, data_find e' p = true → data_find (download e' name) p = true) →
  (∀ e' d, d ∈ ds → data_find (download e' d.1) d.2 = true) →
  ∀ d, d ∈ ds → data_find (foldl step st ds).1 d.2 = true.
Proof.
  intros Hmono. revert st.
  induction ds as [|d0 ds IH]; intros st Hworks d Hd;
    [by apply elem_of_nil in Hd|].
  cbn [foldl]. apply elem_of_cons in Hd as [->|Hd].
  - apply download_loop_keeps; [done|]. unfold download_step.
    destruct (data_find st.1 d0.2) eqn:E; [done|].
    cbn. apply Hworks, list_elem_of_here.
  - apply IH; [|done]. intros e' d' Hd'. apply Hworks, elem_of_cons. by right.
Qed.

(** X: when a download makes its resource found and loses nothing that
    was found, every resource of the table is found after the function,
    whatever was there before. *)
Theorem download_nltk_data_works e :
  (∀ e' name p, data_find e' p = true → data_find (download e' name) p = true) →
  (∀ e' d, d ∈ downloads → data_find (download e' d.1) d.2 = true) →
  ∀ d, d ∈ downloads →
    data_find (download_nltk_data env data_find download e).1 d.2 = true.
Proof.
  intros Hmono Hworks. unfold download_nltk_data.
  by apply download_loop_works.
Qed.

End ResourcesProofs.

(** ** The further properties on the example inputs *)

Lemma drop_tags_words t :
  (∀ c, c ∈ t → c = SP ∨ ucd_is_word c = true) → drop_tags false t = t.
Proof.
  induction t as [|c t IH]; intros H; [done|].
  cbn [drop_tags].
  assert ((c =? 60) = false) as ->.
  { destruct (H c (list_elem_of_here _ _)) as [->|Hw]; [done|].
    destruct (c =? 60) eqn:E; [|done].
    apply N.eqb_eq in E. subst c. discriminate Hw. }
  f_equal. apply IH. intros c' Hc'. apply H, elem_of_cons. by right.
Qed.

Lemma clean_text_shape_witness :
  (∀ c, c ∈ ucd_clean example_sentence →
     c = SP ∨ (ucd_is_word c = true ∧ ucd_is_space c = false))
  ∧ head_outside ucd_is_space (ucd_clean example_sentence)
  ∧ head_outside ucd_is_space (reverse (ucd_clean example_sentence))
  ∧ no_adjacent ucd_is_space (ucd_clean example_sentence) = true.
Proof.
  apply (clean_text_shape
           ucd_lower ucd_is_digit ucd_is_word ucd_is_space plain_soup_text).
  - reflexivity.
  - intros t _ _. reflexivity.
Defined.

Lemma clean_text_lowercase_witness :
  ucd_lower (ucd_clean dotted_i_a) = ucd_clean dotted_i_a.
Proof.
  apply (clean_text_lowercase
           ucd_lower ucd_is_digit ucd_is_word ucd_is_space plain_soup_text).
  - exact ucd_lower_stable.
  - exact ucd_lower_fixed.
  - reflexivity.
  - reflexivity.
  - intros t _ _. reflexivity.
Defined.

Lemma clean_text_parser_unused_witness :
  clean_text ucd_lower ucd_is_digit ucd_is_word ucd_is_space (drop_tags false)
    (lit "<b>Hi</b> there")
  = clean_text ucd_lower ucd_is_digit ucd_is_word ucd_is_space (λ t, t)
      (lit "<b>Hi</b> there").
Proof.
  apply (clean_text_parser_unused
           ucd_lower ucd_is_digit ucd_is_word ucd_is_space (drop_tags false)).
  - reflexivity.
  - intros t Ht _. by apply drop_tags_words.
Defined.

Lemma digits_only_no_words c :
  c ∈ ucd_lower digits_only →
  ucd_is_digit c = true ∨ c ∈ punctuation ∨ ucd_is_word c = false.
Proof.
  change (ucd_lower digits_only) with [49; 50; 51; 32; 33; 63].
  rewrite !elem_of_cons, elem_of_nil.
  intros [->|[->|[->|[->|[->|[->|[]]]]]]];
    first [ by left
          | by right; right
          | right; left; unfold punctuation; rewrite !elem_of_cons; tauto ].
Qed.

Lemma clean_text_no_words_witness : ucd_clean digits_only = [].
Proof.
  apply (clean_text_no_words
           ucd_lower ucd_is_digit ucd_is_word ucd_is_space plain_soup_text).
  - reflexivity.
  - intros t _ _. reflexivity.
  - exact digits_only_no_words.
Defined.

Lemma preprocess_text_no_words_witness :
  cleaned_corpus (example_pipeline [example_sentence; digits_only]) !! 1%nat
  = Some []
  ∧ tokenized_corpus (example_pipeline [example_sentence; digits_only]) !! 1%nat
    = Some []
  ∧ filtered_corpus (example_pipeline [example_sentence; digits_only]) !! 1%nat
    = Some []
  ∧ stemmed_corpus (example_pipeline [example_sentence; digits_only]) !! 1%nat
    = Some []
  ∧ lemmatized_corpus (example_pipeline [example_sentence; digits_only]) !! 1%nat
    = Some [].
Proof.
  apply (preprocess_text_no_words
           ucd_lower ucd_is_digit ucd_is_word ucd_is_space plain_soup_text
           ws_tokenize stopwords_excerpt stem_excerpt lemmatize_excerpt
           [example_sentence; digits_only] 1%nat digits_only).
  - reflexivity.
  - intros t _ _. reflexivity.
  - reflexivity.
  - reflexivity.
  - exact digits_only_no_words.
Defined.

Lemma decompose_all_removes_witness :
  tag_named removed_tags (Tag (lit "body") None []) = false.
Proof.
  apply (decompose_all_removes removed_tags nav_footer_page).
  vm_compute. apply elem_of_cons. right. apply list_elem_of_here.
Defined.

Lemma blocks_of_emits_witness :
  (10 ≤ length (strip ucd_is_space (get_text example_paragraph)))%nat
  ∧ (5 < length (split ucd_is_space
                   (strip ucd_is_space (get_text example_paragraph))))%nat.
Proof.
  destruct (blocks_of_emits ucd_lower ucd_is_space example_paragraph
              (lit "This paragraph has more than five words."))
    as (name & cls & cs & Htag & _ & Hlen & _ & [(Hh & _)|(_ & _ & Hwords)]).
  - vm_compute. apply list_elem_of_here.
  - exfalso. injection Htag as <- _ _. revert Hh.
    rewrite !elem_of_cons, elem_of_nil. vm_compute. intuition discriminate.
  - split; [exact Hlen|exact Hwords].
Defined.

Lemma wrapped_paragraph_twice_witness :
  extract_blocks ucd_lower ucd_is_space [wrapped_paragraph]
  = blocks_of ucd_lower ucd_is_space example_paragraph
    ++ blocks_of ucd_lower ucd_is_space example_paragraph.
Proof.
  apply (wrapped_paragraph_twice ucd_lower ucd_is_space).
  vm_compute. reflexivity.
Defined.

(** The paragraph comes out of the extractor twice. *)
Example wrapped_paragraph_blocks :
  extract_blocks ucd_lower ucd_is_space [wrapped_paragraph]
  = [lit "This paragraph has more than five words.";
     lit "This paragraph has more than five words."].
Proof. vm_compute. reflexivity. Qed.

Lemma run_script_error_witness :
  UnicodeDecodeError = UnicodeDecodeError
  ∧ input_type bad_upload_run = UploadFile
  ∧ ∃ bytes, uploaded_file bad_upload_run = Some bytes
             ∧ ascii_decode bytes = None.
Proof.
  apply (run_script_error
           ucd_lower ucd_is_digit ucd_is_word ucd_is_space plain_soup_text
           ws_tokenize stopwords_excerpt stem_excerpt lemmatize_excerpt
           ascii_class_search https_scheme https_netloc example_site
           ascii_decode bad_upload_run).
  vm_compute. reflexivity.
Defined.

Lemma run_script_shows_witness :
  ∃ p,
    example_script typed_run = inr p
    ∧ (length (corpus_built p) ≤ 1)%nat
    ∧ (is_Some (text_stats p) ↔ corpus_built p ≠ [])
    ∧ (is_Some (results p) ↔ corpus_built p ≠ [] ∧ process_btn typed_run = true).
Proof.
  assert (∃ p, example_script typed_run = inr p) as [p E]
    by (eexists; vm_compute; reflexivity).
  exists p. split; [exact E|].
  exact (run_script_shows
           ucd_lower ucd_is_digit ucd_is_word ucd_is_space plain_soup_text
           ws_tokenize stopwords_excerpt stem_excerpt lemmatize_excerpt
           ascii_class_search https_scheme https_netloc example_site
           ascii_decode typed_run p E).
Defined.

Lemma run_script_counts_witness :
  ∃ p view,
    example_script typed_run = inr p
    ∧ results p = Some view
    ∧ (remaining_tokens view ≤ total_tokens view)%nat
    ∧ stemmed_tokens view = remaining_tokens view
    ∧ lemmatized_tokens view = remaining_tokens view.
Proof.
  assert (∃ p view, example_script typed_run = inr p ∧ results p = Some view)
    as (p & view & E & Ev)
    by (eexists _, _; split; vm_compute; reflexivity).
  exists p, view. split; [exact E|]. split; [exact Ev|].
  destruct (run_script_counts
              ucd_lower ucd_is_digit ucd_is_word ucd_is_space plain_soup_text
              ws_tokenize stopwords_excerpt stem_excerpt lemmatize_excerpt
              ascii_class_search https_scheme https_netloc example_site
              ascii_decode typed_run p view E Ev)
    as (H1 & H2 & H3 & _).
  by repeat split.
Defined.

Lemma downloads_split_back_witness :
  ∃ view,
    show_results (example_pipeline [example_sentence]) = inr view
    ∧ split ucd_is_space (processed_text view)
      = [lit "quick"; lit "brown"; lit "fox"; lit "running";
         lit "jumping"; lit "lazy"; lit "dog"]
    ∧ split ucd_is_space (tokens_text view)
      = [lit "quick"; lit "brown"; lit "fox"; lit "running";
         lit "jumping"; lit "lazy"; lit "dog"].
Proof.
  assert (∃ view, show_results (example_pipeline [example_sentence]) = inr view)
    as [view E] by (eexists; vm_compute; reflexivity).
  exists view. split; [exact E|].
  apply (downloads_split_back ucd_is_space
           (example_pipeline [example_sentence]) view).
  - reflexivity.
  - reflexivity.
  - exact E.
  - vm_compute. reflexivity.
  - repeat constructor; try discriminate;
      intros c Hc; apply list_elem_of_In in Hc; vm_compute in Hc;
      repeat (destruct Hc as [<-|Hc]; [reflexivity|]); destruct Hc.
Defined.

Lemma run_script_fetch_failure_witness :
  example_script (scrape_run (lit "https://example.net") true)
  = inr {| corpus_built := [];
           warning :=
             Some (lit "Failed to fetch the webpage: "
                   ++ lit "connection refused");
           text_stats := None; results := None |}.
Proof.
  apply (run_script_fetch_failure
           ucd_lower ucd_is_digit ucd_is_word ucd_is_space plain_soup_text
           ws_tokenize stopwords_excerpt stem_excerpt lemmatize_excerpt
           ascii_class_search https_scheme https_netloc example_site
           ascii_decode (scrape_run (lit "https://example.net") true)).
  - reflexivity.
  - vm_compute. discriminate.
  - reflexivity.
  - vm_compute. reflexivity.
Defined.

Lemma run_script_scrape_not_pressed_witness :
  process_btn (scrape_run (lit "https://example.com") false) = true
  ∧ example_script (scrape_run (lit "https://example.com") false)
    = inr {| corpus_built := []; warning := None;
             text_stats := None; results := None |}.
Proof.
  split; [reflexivity|].
  apply (run_script_scrape_not_pressed
           ucd_lower ucd_is_digit ucd_is_word ucd_is_space plain_soup_text
           ws_tokenize stopwords_excerpt stem_excerpt lemmatize_excerpt
           ascii_class_search https_scheme https_netloc example_site
           ascii_decode (scrape_run (lit "https://example.com") false)).
  - reflexivity.
  - reflexivity.
Defined.

Lemma run_script_scraped_witness :
  ∃ p text,
    example_script (scrape_run (lit "https://example.com") true) = inr p
    ∧ corpus_built p = [text]
    ∧ head text = Some HASH
    ∧ warning p = None
    ∧ text_stats p = Some (metrics_of ucd_lower ucd_is_space text).
Proof.
  apply (run_script_scraped
           ucd_lower ucd_is_digit ucd_is_word ucd_is_space plain_soup_text
           ws_tokenize stopwords_excerpt stem_excerpt lemmatize_excerpt
           ascii_class_search https_scheme https_netloc example_site
           ascii_decode (scrape_run (lit "https://example.com") true)).
  - reflexivity.
  - vm_compute. discriminate.
  - reflexivity.
Defined.

(** A page that the parser rejects: the second handler's message is the
    warning, and there is no corpus. *)
Example run_script_parse_failure :
  run_script ucd_lower ucd_is_digit ucd_is_word ucd_is_space plain_soup_text
    ws_tokenize stopwords_excerpt stem_excerpt lemmatize_excerpt
    ascii_class_search https_scheme https_netloc broken_site ascii_decode
    (scrape_run (lit "https://example.com") true)
  = inr {| corpus_built := [];
           warning :=
             Some (lit "Error processing the webpage: parser rejected the markup");
           text_stats := None; results := None |}.
Proof. vm_compute. reflexivity. Qed.


(** An empty text typed in builds no corpus, where the empty file is a
    document. *)
Example typed_empty_text :
  example_script
    {| input_type := EnterText; user_text := []; uploaded_file := None;
       web_url := []; scrape_btn := false; process_btn := true |}
  = inr {| corpus_built := []; warning := None;
           text_stats := None; results := None |}.
Proof. vm_compute. reflexivity. Qed.

Lemma download_nltk_data_found_witness :
  download_nltk_data unit installed_find offline_download () = ((), []).
Proof.
  apply (download_nltk_data_found unit installed_find offline_download ()).
  intros d _. reflexivity.
Defined.

Lemma download_nltk_data_offline_witness :
  (download_nltk_data unit offline_find offline_download ()).2
  = [lit "punkt_tab"; lit "punkt"; lit "stopwords"; lit "wordnet";
     lit "omw-1.4"].
Proof.
  apply (download_nltk_data_offline unit offline_find offline_download ()).
  intros e' name path. reflexivity.
Defined.

Lemma store_download_path d :
  d ∈ downloads → table_lookup downloads d.1 = d.2.
Proof.
  unfold downloads. rewrite !elem_of_cons, elem_of_nil.
  intros [->|[->|[->|[->|[->|[]]]]]]; vm_compute; reflexivity.
Qed.

Lemma download_nltk_data_works_witness :
  store_find
    (download_nltk_data (gset (list N)) store_find store_download ∅).1
    (lit "corpora/wordnet")
  = true.
Proof.
  apply (download_nltk_data_works (gset (list N)) store_find store_download ∅
           (λ e' name p H,
              bool_decide_eq_true_2 _
                (proj2 (elem_of_union _ _ _)
                   (or_introl (bool_decide_eq_true_1 _ H))))
           (λ e' d Hd,
              bool_decide_eq_true_2 _
                (proj2 (elem_of_union _ _ _)
                   (or_intror
                      (proj2 (elem_of_singleton _ _)
                         (eq_sym (store_download_path d Hd))))))
           (lit "wordnet", lit "corpora/wordnet")).
  unfold downloads. rewrite !elem_of_cons. tauto.
Defined.

(** ** The pipeline when an NLTK call raises *)

Lemma try_map_returns {A B} (f : A → lookup_error + B) (default : B) (l : list A) :
  (∀ x, x ∈ l → ∃ y, f x = inr y) →
  try_map f l = inr ((λ x, returned default (f x)) <$> l).
Proof.
  induction l as [|x l IH]; intros H; [done|].
  cbn [try_map]. destruct (H x (list_elem_of_here _ _)) as [y Hy].
  rewrite IH by (intros x' Hx'; apply H, elem_of_cons; by right).
  by rewrite fmap_cons, Hy.
Qed.

Lemma try_map_inr {A B} (f : A → lookup_error + B) (l : list A) (l' : list B) :
  try_map f l = inr l' → Forall2 (λ x y, f x = inr y) l l'.
Proof.
  revert l'. induction l as [|x l IH]; intros l'; cbn [try_map].
  - intros [= <-]. constructor.
  - destruct (f x) as [e|y] eqn:Hx; [done|].
    destruct (try_map f l) as [e|ys]; [done|].
    intros [= <-]. constructor; [done|]. by apply IH.
Qed.

Lemma Forall2_fmap_eq {A B} (g : A → B) (l : list A) (l' : list B) :
  Forall2 (λ x y, y = g x) l l' → l' = g <$> l.
Proof. induction 1; [done|]. cbn. by f_equal. Qed.

Section PipelineRaisingProofs.

Variable lower : str → str.
Variable is_digit is_word is_space : char → bool.
Variable soup_text : str → str.
Variable nltk_word_tokenize : str → lookup_error + list str.
Variable nltk_stopwords : lookup_error + list str.
Variable stem : str → str.
Variable nltk_lemmatize : str → lookup_error + str.

Local Abbreviation returned_pipeline :=
  (preprocess_text lower is_digit is_word is_space soup_text
     (λ d, returned [] (nltk_word_tokenize d))
     (returned [] nltk_stopwords)
     stem
     (λ w, returned [] (nltk_lemmatize w))).

(** Whenever the function returns, its result is that of the calls that
    returned: what is proved of [preprocess_text] holds of it. *)
Lemma try_preprocess_text_inr corpus result :
  try_preprocess_text lower is_digit is_word is_space soup_text
    nltk_word_tokenize nltk_stopwords stem nltk_lemmatize corpus = inr result →
  result = returned_pipeline corpus.
Proof.
  unfold try_preprocess_text, preprocess_text.
  destruct (try_map nltk_word_tokenize _) as [e|tokenized] eqn:Htok; [done|].
  destruct nltk_stopwords as [e|stopwords_english]; [done|].
  destruct (try_map (try_map nltk_lemmatize) _) as [e|lemmatized] eqn:Hlem;
    [done|].
  intros [= <-]. cbn [returned].
  assert (tokenized
          = (λ d, returned [] (nltk_word_tokenize d))
              <$> (clean_text lower is_digit is_word is_space soup_text <$> corpus))
    as ->.
  { apply try_map_inr in Htok. apply Forall2_fmap_eq.
    eapply Forall2_impl; [exact Htok|]. by intros x y ->. }
  f_equal.
  apply try_map_inr in Hlem. apply Forall2_fmap_eq.
  eapply Forall2_impl; [exact Hlem|]. intros doc lemmas Hdoc.
  apply try_map_inr in Hdoc. apply Forall2_fmap_eq.
  eapply Forall2_impl; [exact Hdoc|]. by intros x y ->.
Qed.

(** With calls that return, the function returns. *)
Lemma try_preprocess_text_loaded corpus :
  (∀ d, ∃ tokens, nltk_word_tokenize d = inr tokens) →
  (∃ stopwords_english, nltk_stopwords = inr stopwords_english) →
  (∀ w, ∃ lemma, nltk_lemmatize w = inr lemma) →
  try_preprocess_text lower is_digit is_word is_space soup_text
    nltk_word_tokenize nltk_stopwords stem nltk_lemmatize corpus
  = inr (returned_pipeline corpus).
Proof.
  intros Htok [stopwords_english Hstop] Hlem.
  unfold try_preprocess_text, preprocess_text.
  rewrite (try_map_returns nltk_word_tokenize []) by (intros d _; apply Htok).
  rewrite Hstop. cbn [returned].
  rewrite (try_map_returns (try_map nltk_lemmatize) []).
  - f_equal. f_equal. apply list_fmap_ext. intros _ doc _.
    by rewrite (try_map_returns nltk_lemmatize []) by (intros w _; apply Hlem).
  - intros doc _. eexists.
    apply (try_map_returns nltk_lemmatize []). intros w _. apply Hlem.
Qed.

(** C9, as the code has it: when the NLTK data is there, so that the
    tokenizer, the stop word list and the lemmatizer return, the function
    returns a result for every corpus, and in it the empty document has
    the empty text and the empty token lists at every stage. *)
Theorem try_preprocess_text_returns corpus :
  (∀ d, ∃ tokens, nltk_word_tokenize d = inr tokens) →
  (∃ stopwords_english, nltk_stopwords = inr stopwords_english) →
  (∀ w, ∃ lemma, nltk_lemmatize w = inr lemma) →
  lower [] = [] →
  soup_text [] = [] →
  nltk_word_tokenize [] = inr [] →
  ∃ result,
    try_preprocess_text lower is_digit is_word is_space soup_text
      nltk_word_tokenize nltk_stopwords stem nltk_lemmatize corpus
    = inr result
    ∧ length (cleaned_corpus result) = length corpus
    ∧ ∀ i, corpus !! i = Some [] →
        cleaned_corpus result !! i = Some []
        ∧ tokenized_corpus result !! i = Some []
        ∧ filtered_corpus result !! i = Some []
        ∧ stemmed_corpus result !! i = Some []
        ∧ lemmatized_corpus result !! i = Some [].
Proof.
  intros Htok Hstop Hlem Hlow Hsoup Hnil.
  exists (returned_pipeline corpus).
  split; [by apply try_preprocess_text_loaded|].
  split; [cbn; by rewrite length_fmap|].
  intros i.
  apply (preprocess_text_entries lower is_digit is_word is_space soup_text
           (λ d, returned [] (nltk_word_tokenize d))
           (returned [] nltk_stopwords) stem
           (λ w, returned [] (nltk_lemmatize w)) Hlow Hsoup).
  by rewrite Hnil.
Qed.

(** When the tokenizer does not find its data, the function raises on
    every corpus that holds a document; when the stop words are missing,
    it raises on every corpus. *)
Lemma try_preprocess_text_raises doc corpus e :
  (nltk_word_tokenize
     (clean_text lower is_digit is_word is_space soup_text doc) = inl e →
   try_preprocess_text lower is_digit is_word is_space soup_text
     nltk_word_tokenize nltk_stopwords stem nltk_lemmatize (doc :: corpus)
   = inl e)
  ∧ (nltk_stopwords = inl e →
     ∃ e', try_preprocess_text lower is_digit is_word is_space soup_text
             nltk_word_tokenize nltk_stopwords stem nltk_lemmatize
             (doc :: corpus) = inl e').
Proof.
  unfold try_preprocess_text. split.
  - intros H. cbn [fmap list_fmap try_map]. by rewrite H.
  - intros H. destruct (try_map nltk_word_tokenize _); [by eexists|].
    rewrite H. by eexists.
Qed.

End PipelineRaisingProofs.

Lemma try_preprocess_text_returns_witness :
  ∃ result,
    installed_pipeline [[]; example_sentence] = inr result
    ∧ length (cleaned_corpus result) = 2%nat
    ∧ ∀ i, ([[]; example_sentence] : list (list N)) !! i = Some [] →
        cleaned_corpus result !! i = Some []
        ∧ tokenized_corpus result !! i = Some []
        ∧ filtered_corpus result !! i = Some []
        ∧ stemmed_corpus result !! i = Some []
        ∧ lemmatized_corpus result !! i = Some [].
Proof.
  apply (try_preprocess_text_returns
           ucd_lower ucd_is_digit ucd_is_word ucd_is_space plain_soup_text
           (λ d, found_or_raise (installed_find () (lit "tokenizers/punkt_tab"))
                   (lit "punkt_tab") (ws_tokenize d))
           (found_or_raise (installed_find () (lit "corpora/stopwords"))
              (lit "stopwords") stopwords_excerpt)
           stem_excerpt
           (λ w, found_or_raise (installed_find () (lit "corpora/wordnet"))
                   (lit "wordnet") (lemmatize_excerpt w))
           [[]; example_sentence]).
  - intros d. eexists. reflexivity.
  - eexists. reflexivity.
  - intros w. eexists. reflexivity.
  - reflexivity.
  - reflexivity.
  - reflexivity.
Defined.

(** C9 fails on the machine without the NLTK data, which is how the
    loader leaves a machine without a network: the function raises on
    the corpus of the empty document, and on the empty corpus. *)
Lemma try_preprocess_text_counterexample :
  (download_nltk_data unit offline_find offline_download ()).1 = ()
  ∧ offline_pipeline [[]] = inl (LookupError (lit "punkt_tab"))
  ∧ offline_pipeline [] = inl (LookupError (lit "stopwords"))
  ∧ ¬ (∃ result, offline_pipeline [[]] = inr result).
Proof.
  split; [reflexivity|]. split; [vm_compute; reflexivity|].
  split; [vm_compute; reflexivity|].
  intros [result H]. vm_compute in H. discriminate H.
Qed.
